(** * dashboarder-go: a shallow embedding of the telemetry pipeline

    The Go services of the repository are embedded here as Rocq functions:

    - [Strconv]: Go's [strconv.ParseFloat(s, 64)], used by the Ingestor's
      [ProcessMessage] and by the Read API's [GetAllSensors];
    - [Ingestor]: [SensorMetadata], [GetMetadata], [LoadSensors] and
      [ProcessMessage] (src/services/sensor-ingestor/metadata.go,
      src/services/log-collector/main.go);
    - [Duration]: Go's [time.ParseDuration], used by [GetHistory];
    - [HomeApi]: [GetAllSensors], [GetHistory], [handleGetHistory];
    - [Persister]: [SaveMeasurement] over the two stores;
    - [Schema]: the [sensor_data] hypertable of the SQL schema;
    - [LogCollector]: [LoadConfig], [appendLogToFile] and the message
      handler of the Log Collector.

    float64 values are Stdlib's [spec_float] at binary64 parameters
    (prec = 53, emax = 1024): IEEE-754 zeros, infinities, NaN and finite
    values, with IEEE comparisons [SFltb] / [SFleb] (false on NaN). *)

From Stdlib Require Import ZArith Bool Lia.
From Stdlib Require Import Strings.String Strings.Ascii.
From Stdlib Require Import Floats.SpecFloat.
From stdpp Require Import base gmap strings.

Local Open Scope Z_scope.
Set Warnings "-register-all".

(** ** JSON values as produced by Go's [encoding/json]

    [json.Marshal] is embedded as a function to a JSON tree; the byte
    rendering of the tree plays no role in the properties below. *)
Inductive json :=
| JNull
| JBool (b : bool)
| JInt (z : Z)
| JNumber (f : spec_float)
| JString (s : string)
| JArray (xs : list json)
| JObject (fields : list (string * json)).

(** ** Characters *)
Module Chars.
Definition code (c : ascii) : N := N_of_ascii c.
(** Go's [lower(c) = c | ('x' - 'X')]. *)
Definition lower (c : ascii) : ascii := ascii_of_N (N.lor (code c) 32).
Definition is_digit (c : ascii) : bool := ((48 <=? code c) && (code c <=? 57))%N.
Definition is_upper (c : ascii) : bool := ((65 <=? code c) && (code c <=? 90))%N.
Definition is_hex_letter (c : ascii) : bool :=
  ((97 <=? code (lower c)) && (code (lower c) <=? 102))%N.
Definition digit_val (c : ascii) : Z := Z.of_N (code c) - 48.
Definition hex_letter_val (c : ascii) : Z := Z.of_N (code (lower c)) - 87.
Definition chr (n : N) : ascii := ascii_of_N n.
End Chars.

(** ** strconv.ParseFloat(s, 64) *)
Module Strconv.
Import Chars.

Definition float64 := spec_float.
Definition prec : Z := 53.
Definition emax : Z := 1024.

Inductive num_error := ErrSyntax | ErrRange.

(** [commonPrefixLenIgnoreCase(s, prefix)]: [prefix] is lower case. *)
Fixpoint common_prefix_len_ci (s prefix : string) : nat :=
  match s, prefix with
  | String c s', String p prefix' =>
      let c' := if is_upper c then ascii_of_N (code c + 32) else c in
      if Ascii.eqb c' p then S (common_prefix_len_ci s' prefix') else O
  | _, _ => O
  end.

Definition special_inf (sign : bool) (nsign : nat) (s : string)
  : option (float64 * nat) :=
  let n := common_prefix_len_ci s "infinity" in
  let n := if (3 <? n)%nat && (n <? 8)%nat then 3%nat else n in
  if (n =? 3)%nat || (n =? 8)%nat then Some (S754_infinity sign, (nsign + n)%nat)
  else None.

(** [special(s)]: "inf", "infinity" (optionally signed) and "nan",
    ignoring case; returns the value and the number of bytes read. *)
Definition special (s : string) : option (float64 * nat) :=
  match s with
  | EmptyString => None
  | String c t =>
      if Ascii.eqb c "+" then special_inf false 1 t
      else if Ascii.eqb c "-" then special_inf true 1 t
      else if Ascii.eqb c "i" || Ascii.eqb c "I" then special_inf false 0 s
      else if Ascii.eqb c "n" || Ascii.eqb c "N" then
        if (common_prefix_len_ci s "nan" =? 3)%nat then Some (S754_nan, 3%nat)
        else None
      else None
  end.

(** [underscoreOK(s)]. *)
Inductive saw := SawBegin | SawDigit | SawUnder | SawOther.

Fixpoint underscore_loop (hex : bool) (s : string) (st : saw) : option saw :=
  match s with
  | EmptyString => Some st
  | String c s' =>
      if is_digit c || (hex && is_hex_letter c) then underscore_loop hex s' SawDigit
      else if Ascii.eqb c "_" then
        match st with
        | SawDigit => underscore_loop hex s' SawUnder
        | _ => None
        end
      else match st with
           | SawUnder => None
           | _ => underscore_loop hex s' SawOther
           end
  end.

Definition underscore_ok (s : string) : bool :=
  let s := match s with
           | String c t => if Ascii.eqb c "-" || Ascii.eqb c "+" then t else s
           | EmptyString => s
           end in
  let '(hex, body, st) :=
    match s with
    | String "0"%char (String b t) =>
        let lb := lower b in
        if Ascii.eqb lb "b" || Ascii.eqb lb "o" || Ascii.eqb lb "x"
        then (Ascii.eqb lb "x", t, SawDigit) else (false, s, SawBegin)
    | _ => (false, s, SawBegin)
    end in
  match underscore_loop hex body st with
  | Some SawUnder | None => false
  | Some _ => true
  end.

(** State of the mantissa loop of [readFloat]: all digits read so far
    as one integer, the number of digits after the point, and the
    flags of the Go code. *)
Record mant_state := MantState {
  ms_mant : Z; ms_frac : Z; ms_sawdot : bool; ms_sawdigits : bool; ms_under : bool }.

Definition ms_init := MantState 0 0 false false false.

Definition ms_digit (base : Z) (d : Z) (st : mant_state) : mant_state :=
  MantState (ms_mant st * base + d)
    (if ms_sawdot st then ms_frac st + 1 else ms_frac st)
    (ms_sawdot st) true (ms_under st).

Fixpoint read_mant (hex : bool) (s : string) (st : mant_state)
  : mant_state * string :=
  let base := if hex then 16 else 10 in
  match s with
  | EmptyString => (st, s)
  | String c s' =>
      if Ascii.eqb c "_" then
        read_mant hex s' (MantState (ms_mant st) (ms_frac st) (ms_sawdot st)
                                    (ms_sawdigits st) true)
      else if Ascii.eqb c "." then
        if ms_sawdot st then (st, s)
        else read_mant hex s' (MantState (ms_mant st) (ms_frac st) true
                                         (ms_sawdigits st) (ms_under st))
      else if is_digit c then read_mant hex s' (ms_digit base (digit_val c) st)
      else if hex && is_hex_letter c then
        read_mant hex s' (ms_digit base (hex_letter_val c) st)
      else (st, s)
  end.

(** Exponent digits; the Go code stops accumulating at 10000. *)
Fixpoint read_exp_digits (s : string) (e : Z) (under : bool) : Z * bool * string :=
  match s with
  | EmptyString => (e, under, s)
  | String c s' =>
      if Ascii.eqb c "_" then read_exp_digits s' e true
      else if is_digit c then
        read_exp_digits s' (if e <? 10000 then e * 10 + digit_val c else e) under
      else (e, under, s)
  end.

(** The result of [readFloat]: sign, base 16 or not, the mantissa [m]
    and exponent [e] (value [m * 10^e], or [m * 2^e] in base 16), and
    the unread suffix. *)
Record read_result := ReadResult {
  rr_neg : bool; rr_hex : bool; rr_mant : Z; rr_exp : Z; rr_rest : string }.

(** Optional sign of the number. *)
Definition read_sign (s : string) : bool * string :=
  match s with
  | String c t =>
      if Ascii.eqb c "+" then (false, t)
      else if Ascii.eqb c "-" then (true, t) else (false, s)
  | EmptyString => (false, s)
  end.

(** Base prefix ["0x"], taken when at least one byte follows it
    ([i+2 < len(s)]). *)
Definition read_base_prefix (s : string) : bool * string :=
  match s with
  | String "0"%char (String x (String _ _ as t)) =>
      if Ascii.eqb (lower x) "x" then (true, t) else (false, s)
  | _ => (false, s)
  end.

(** Optional sign of the exponent. *)
Definition read_exp_sign (s : string) : Z * string :=
  match s with
  | String c t =>
      if Ascii.eqb c "+" then (1, t)
      else if Ascii.eqb c "-" then (-1, t) else (1, s)
  | EmptyString => (1, s)
  end.

(** End of [readFloat]: the [underscoreOK] check on the bytes read. *)
Definition read_finish (s0 : string) (neg hex : bool) (st : mant_state)
           (e : Z) (under : bool) (rest : string) : option read_result :=
  let consumed := (String.length s0 - String.length rest)%nat in
  if under && negb (underscore_ok (substring 0 consumed s0)) then None
  else Some (ReadResult neg hex (ms_mant st)
               (if hex then e - 4 * ms_frac st else e - ms_frac st) rest).

(** [readFloat(s)]. *)
Definition read_float (s0 : string) : option read_result :=
  let '(neg, s1) := read_sign s0 in
  let '(hex, s2) := read_base_prefix s1 in
  let '(st, s3) := read_mant hex s2 ms_init in
  if negb (ms_sawdigits st) then None else
  match s3 with
  | String c s4 =>
      if Ascii.eqb (lower c) (if hex then "p" else "e") then
        let '(esign, s5) := read_exp_sign s4 in
        match s5 with
        | String d _ =>
            if is_digit d then
              let '(e, u, s6) := read_exp_digits s5 0 false in
              read_finish s0 neg hex st (esign * e) (ms_under st || u) s6
            else None
        | EmptyString => None
        end
      else if hex then None else read_finish s0 neg hex st 0 (ms_under st) s3
  | EmptyString => if hex then None else read_finish s0 neg hex st 0 (ms_under st) s3
  end.

(** Correctly rounded conversion (IEEE round-half-even) of the exact
    value read, as [ParseFloat] documents. *)
Definition to_float64 (neg hex : bool) (m e : Z) : float64 :=
  if m =? 0 then S754_zero neg
  else if hex then binary_round prec emax neg (Z.to_pos m) e
  else if 0 <=? e then binary_round prec emax neg (Z.to_pos (m * 10 ^ e)) 0
  else let '(mz, ez, lz) := SFdiv_core_binary prec emax m 0 (10 ^ (- e)) 0 in
       binary_round_aux prec emax neg mz ez lz.

(** [strconv.ParseFloat(s, 64)]: the value and the error, as Go
    returns them (0 on a syntax error, +-Inf on overflow). *)
Definition ParseFloat (s : string) : float64 * option num_error :=
  match special s with
  | Some (f, n) =>
      if (n =? String.length s)%nat then (f, None) else (S754_zero false, Some ErrSyntax)
  | None =>
      match read_float s with
      | None => (S754_zero false, Some ErrSyntax)
      | Some r =>
          match rr_rest r with
          | EmptyString =>
              let f := to_float64 (rr_neg r) (rr_hex r) (rr_mant r) (rr_exp r) in
              match f with
              | S754_infinity _ => (f, Some ErrRange)
              | _ => (f, None)
              end
          | String _ _ => (S754_zero false, Some ErrSyntax)
          end
      end
  end.

(** binary64 of a small integer, for examples. *)
Definition of_Z (z : Z) : float64 := binary_normalize prec emax z 0 false.

Definition is_finite (f : float64) : bool :=
  match f with S754_zero _ | S754_finite _ _ _ => true | _ => false end.
End Strconv.

(** ** Go's [time.Time] in UTC and its JSON encoding

    A timestamp is the number of nanoseconds since the Unix epoch (UTC).
    [Time.MarshalJSON] writes RFC 3339 with nanoseconds (trailing zeros
    of the fraction dropped) and fails when the year is outside
    [0, 9999]. *)
Module GoTime.
Import Chars.

Definition digit_char (d : Z) : ascii := chr (Z.to_N (48 + d)).

Fixpoint dec_aux (fuel : nat) (n : Z) (acc : string) : string :=
  let acc' := String (digit_char (n mod 10)) acc in
  match fuel with
  | O => acc'
  | S fuel' => if n / 10 =? 0 then acc' else dec_aux fuel' (n / 10) acc'
  end.

(** Decimal digits of a non-negative integer. *)
Definition dec (n : Z) : string := dec_aux 40 n EmptyString.

Fixpoint zeros (k : nat) : string :=
  match k with O => EmptyString | S k' => String "0" (zeros k') end.

(** Zero padding to width [w]. *)
Definition pad (w : nat) (n : Z) : string :=
  let s := dec n in (zeros (w - String.length s) ++ s)%string.

Fixpoint strip_zeros (fuel : nat) (n : Z) (w : nat) : Z * nat :=
  match fuel with
  | O => (n, w)
  | S fuel' => if (n mod 10 =? 0) && (0 <? n) then strip_zeros fuel' (n / 10) (pred w) else (n, w)
  end.

Definition frac (nanos : Z) : string :=
  if nanos =? 0 then EmptyString
  else let '(n, w) := strip_zeros 9 nanos 9 in String "." (pad w n).

(** Days since 1970-01-01 to (year, month, day), proleptic Gregorian. *)
Definition civil_from_days (days : Z) : Z * Z * Z :=
  let z := days + 719468 in
  let era := z / 146097 in
  let doe := z - era * 146097 in
  let yoe := (doe - doe / 1460 + doe / 36524 - doe / 146096) / 365 in
  let doy := doe - (365 * yoe + yoe / 4 - yoe / 100) in
  let mp := (5 * doy + 2) / 153 in
  let d := doy - (153 * mp + 2) / 5 + 1 in
  let m := if mp <? 10 then mp + 3 else mp - 9 in
  let y := yoe + era * 400 in
  ((if m <=? 2 then y + 1 else y), m, d).

Definition format_rfc3339nano (t : Z) : option string :=
  let secs := t / 1000000000 in
  let nanos := t mod 1000000000 in
  let sod := secs mod 86400 in
  let '(y, mo, d) := civil_from_days (secs / 86400) in
  if (y <? 0) || (9999 <? y) then None
  else Some (pad 4 y ++ "-" ++ pad 2 mo ++ "-" ++ pad 2 d ++ "T"
             ++ pad 2 (sod / 3600) ++ ":" ++ pad 2 ((sod mod 3600) / 60) ++ ":"
             ++ pad 2 (sod mod 60) ++ frac nanos ++ "Z")%string.
End GoTime.

(** ** The Sensor Ingestor

    [SensorMetadata], the [MetadataService] cache and its refresh
    (src/services/sensor-ingestor/metadata.go), and [ProcessMessage]
    (src/services/log-collector/main.go, second file). *)
Module Ingestor.
Import Strconv.

Record SensorMetadata := MkSensorMetadata {
  ID : Z;
  MinValue : option float64;   (* *float64, nil = no limit *)
  MaxValue : option float64 }.

(** The service's shared state: the [cache] map behind [mu]. *)
Record MetadataService := MkMetadataService { cache : gmap string SensorMetadata }.

Definition NewMetadataService : MetadataService := MkMetadataService ∅.

(** [GetMetadata]: a read of the map under the read lock. *)
Definition GetMetadata (s : MetadataService) (topic : string) : option SensorMetadata :=
  cache s !! topic.

(** [SensorEvent] (src/services/sensor-ingestor/types.go). *)
Record SensorEvent := MkSensorEvent {
  SensorID : Z; Value : float64; Timestamp : Z }.

(** [encoding/json] on a float64: NaN and +-Inf are an
    [UnsupportedValueError]. *)
Definition marshal_float (f : float64) : option json :=
  if is_finite f then Some (JNumber f) else None.

(** [json.Marshal(event)] with the struct tags of [SensorEvent]. *)
Definition marshal_event (ev : SensorEvent) : option json :=
  match marshal_float (Value ev), GoTime.format_rfc3339nano (Timestamp ev) with
  | Some v, Some t =>
      Some (JObject [("sensor_id", JInt (SensorID ev)); ("value", v); ("timestamp", JString t)])
  | _, _ => None
  end.

(** The errors [ProcessMessage] returns, one per [return nil, err]. *)
Inductive pm_error :=
| UnknownTopic (topic : string)
| MalformedValue (valStr : string) (e : num_error)
| BelowMin (val lo : float64) (id : Z)
| AboveMax (val hi : float64) (id : Z)
| MarshalError.

(** [if meta.MinValue != nil && val < *meta.MinValue]: Go's [<] on
    float64 is the IEEE comparison. *)
Definition check_min (meta : SensorMetadata) (val : float64) : option pm_error :=
  match MinValue meta with
  | Some lo => if SFltb val lo then Some (BelowMin val lo (ID meta)) else None
  | None => None
  end.

(** [if meta.MaxValue != nil && val > *meta.MaxValue]. *)
Definition check_max (meta : SensorMetadata) (val : float64) : option pm_error :=
  match MaxValue meta with
  | Some hi => if SFltb hi val then Some (AboveMax val hi (ID meta)) else None
  | None => None
  end.

(** [ProcessMessage(topic, payload, metaService)]; [now] is
    [time.Now().UTC()] in nanoseconds since the epoch. *)
Definition ProcessMessage (now : Z) (topic payload : string) (metaService : MetadataService)
  : pm_error + json :=
  match GetMetadata metaService topic with
  | None => inl (UnknownTopic topic)
  | Some meta =>
      let valStr := payload in
      match ParseFloat valStr with
      | (_, Some err) => inl (MalformedValue valStr err)
      | (val, None) =>
          match check_min meta val with
          | Some e => inl e
          | None =>
              match check_max meta val with
              | Some e => inl e
              | None =>
                  let event := MkSensorEvent (ID meta) val now in
                  match marshal_event event with
                  | Some j => inr j
                  | None => inl MarshalError
                  end
              end
          end
      end
  end.
End Ingestor.

(** ** time.ParseDuration *)
Module Duration.
Import Chars Strconv.

Definition two63 : Z := 2 ^ 63.
Definition two64 : Z := 2 ^ 64.

Inductive dur_error := InvalidDuration | MissingUnit | UnknownUnit (u : string).

(** [unitMap]; "µs" is U+00B5 and "μs" U+03BC, in UTF-8. *)
Definition unit_map (u : string) : option Z :=
  if String.eqb u "ns" then Some 1
  else if String.eqb u "us" then Some 1000
  else if String.eqb u (String (chr 194) (String (chr 181) "s")) then Some 1000
  else if String.eqb u (String (chr 206) (String (chr 188) "s")) then Some 1000
  else if String.eqb u "ms" then Some 1000000
  else if String.eqb u "s" then Some 1000000000
  else if String.eqb u "m" then Some 60000000000
  else if String.eqb u "h" then Some 3600000000000
  else None.

(** [leadingInt]: the leading [0-9]*, an error on overflow. *)
Fixpoint leading_int (s : string) (x : Z) : option (Z * string) :=
  match s with
  | EmptyString => Some (x, s)
  | String c s' =>
      if negb (is_digit c) then Some (x, s)
      else if x >? two63 / 10 then None
      else let x' := x * 10 + digit_val c in
           if x' >? two63 then None else leading_int s' x'
  end.

(** [leadingFraction]: the leading [0-9]*, accumulating while no
    overflow; [scale] is a float64 multiplied by 10 per digit kept. *)
Fixpoint leading_fraction (s : string) (x : Z) (scale : float64) (overflow : bool)
  : Z * float64 * string :=
  match s with
  | EmptyString => (x, scale, s)
  | String c s' =>
      if negb (is_digit c) then (x, scale, s)
      else if overflow then leading_fraction s' x scale overflow
      else if x >? (two63 - 1) / 10 then leading_fraction s' x scale true
      else let y := x * 10 + digit_val c in
           if y >? two63 then leading_fraction s' x scale true
           else leading_fraction s' y (SFmul prec emax scale (of_Z 10)) overflow
  end.

(** The unit: the bytes up to the next '.' or digit. *)
Fixpoint split_unit (s : string) : string * string :=
  match s with
  | EmptyString => (EmptyString, EmptyString)
  | String c s' =>
      if Ascii.eqb c "." || is_digit c then (EmptyString, s)
      else let '(u, r) := split_unit s' in (String c u, r)
  end.

(** [uint64(f)] of a non-negative float64 below 2^64: truncation. *)
Definition trunc (f : float64) : Z :=
  match f with
  | S754_finite false m e =>
      if 0 <=? e then Z.pos m * 2 ^ e else Z.pos m / 2 ^ (- e)
  | _ => 0
  end.

(** One [v[.f]unit] component, after [s[0]] was found to be in [0-9.]:
    its nanoseconds and the rest of the string. *)
Definition component (s : string) : dur_error + (Z * string) :=
  match leading_int s 0 with
  | None => inl InvalidDuration
  | Some (v, s1) =>
      let pre := negb (String.length s1 =? String.length s)%nat in
      let '(f, scale, s2, post) :=
        match s1 with
        | String "."%char t =>
            let '(f, scale, t') := leading_fraction t 0 (of_Z 1) false in
            (f, scale, t', negb (String.length t' =? String.length t)%nat)
        | _ => (0, of_Z 1, s1, false)
        end in
      if negb pre && negb post then inl InvalidDuration else
      let '(u, s3) := split_unit s2 in
      match u with
      | EmptyString => inl MissingUnit
      | _ =>
          match unit_map u with
          | None => inl (UnknownUnit u)
          | Some unit =>
              if v >? two63 / unit then inl InvalidDuration else
              let v := v * unit in
              let v := if f >? 0
                       then v + trunc (SFmul prec emax (of_Z f)
                                         (SFdiv prec emax (of_Z unit) scale))
                       else v in
              if (f >? 0) && (v >? two63) then inl InvalidDuration
              else inr (v, s3)
          end
      end
  end.

(** The loop [for s != ""]; each component consumes at least its unit,
    so [String.length s] iterations suffice. *)
Fixpoint components (fuel : nat) (s : string) (d : Z) : dur_error + Z :=
  match s with
  | EmptyString => inr d
  | String c _ =>
      match fuel with
      | O => inl InvalidDuration
      | S fuel' =>
          if negb (Ascii.eqb c "." || is_digit c) then inl InvalidDuration else
          match component s with
          | inl e => inl e
          | inr (v, s') =>
              let d := (d + v) mod two64 in
              if d >? two63 then inl InvalidDuration else components fuel' s' d
          end
      end
  end.

(** [time.ParseDuration(s)]: nanoseconds, or an error. *)
Definition ParseDuration (orig : string) : dur_error + Z :=
  let '(neg, s) :=
    match orig with
    | String c t =>
        if Ascii.eqb c "-" then (true, t)
        else if Ascii.eqb c "+" then (false, t) else (false, orig)
    | EmptyString => (false, orig)
    end in
  if String.eqb s "0" then inr 0
  else if String.eqb s "" then inl InvalidDuration
  else match components (String.length s) s 0 with
       | inl e => inl e
       | inr d =>
           if neg then inr (- d)
           else if d >? two63 - 1 then inl InvalidDuration else inr d
       end.
End Duration.

(** ** The Read API (src/services/home-api) *)
Module HomeApi.
Import Chars Strconv.

(** [strconv.ParseInt(s, 10, 64)]: base 10 given, so no underscores
    and no base prefix. *)
Fixpoint digits_value (s : string) (acc : Z) : option Z :=
  match s with
  | EmptyString => Some acc
  | String c s' => if is_digit c then digits_value s' (acc * 10 + digit_val c) else None
  end.

Definition ParseInt (s : string) : option Z :=
  let '(neg, body) :=
    match s with
    | String c t =>
        if Ascii.eqb c "+" then (false, t)
        else if Ascii.eqb c "-" then (true, t) else (false, s)
    | EmptyString => (false, s)
    end in
  match body with
  | EmptyString => None
  | _ =>
      match digits_value body 0 with
      | None => None
      | Some n =>
          let z := if neg then - n else n in
          if (z <? - 2 ^ 63) || (2 ^ 63 - 1 <? z) then None else Some z
      end
  end.

Record HistoryPoint := MkHistoryPoint { Time : Z; PointValue : float64 }.

(** The SQL query [SELECT time, value FROM sensor_data WHERE sensor_id =
    $1 AND time >= $2]: the store answers with rows, or fails. *)
Definition history_db := Z -> Z -> option (list HistoryPoint).

Inductive history_error := BadDuration (e : Duration.dur_error) | QueryFailed.

(** [Service.GetHistory(ctx, sensorID, durationStr)]; [now] is
    [time.Now().UTC()]. *)
Definition GetHistory (db : history_db) (now : Z) (sensorID : Z) (durationStr : string)
  : history_error + list HistoryPoint :=
  match Duration.ParseDuration durationStr with
  | inl e => inl (BadDuration e)
  | inr dur =>
      let startTime := now - dur in
      match db sensorID startTime with
      | None => inl QueryFailed
      | Some points => inr points
      end
  end.

Definition StatusOK := 200%Z.
Definition StatusBadRequest := 400%Z.
Definition StatusInternalServerError := 500%Z.

(** [handleGetHistory]: the status code of the response to
    [GET /api/sensors/{id}/history?range=...]; an absent or empty
    [range] is "24h". *)
Definition handleGetHistory (db : history_db) (now : Z) (idStr rangeParam : string) : Z :=
  match ParseInt idStr with
  | None => StatusBadRequest
  | Some id =>
      let rangeParam := if String.eqb rangeParam "" then "24h"%string else rangeParam in
      match GetHistory db now id rangeParam with
      | inl _ => StatusInternalServerError
      | inr _ => StatusOK
      end
  end.
End HomeApi.

(** ** The [sensor_data] hypertable (SQL schema, src/unnamed/part_004)

    [CREATE TABLE sensor_data (id SERIAL, time TIMESTAMPTZ NOT NULL,
    sensor_id INTEGER NOT NULL REFERENCES sensors(id), value DOUBLE
    PRECISION NOT NULL, PRIMARY KEY(time,id))]. *)
Module Schema.
Import Strconv.

Record data_row := MkDataRow {
  row_id : Z; row_time : Z; row_sensor_id : Z; row_value : float64 }.

(** The rows and the next value of the [id] sequence. *)
Record sensor_data := MkSensorData { rows : list data_row; id_seq : Z }.

Definition empty_sensor_data : sensor_data := MkSensorData [] 1.

(** [SequenceExhausted]: [nextval] past the sequence's maximum. *)
Inductive insert_error := PrimaryKeyConflict | ForeignKeyViolation | SequenceExhausted.

(** The range of [INTEGER] (int4): the type of [sensor_id], and of [id]
    and of its sequence, since [SERIAL] is an int4 column with an
    [AS integer] sequence. *)
Definition int4_min : Z := -2147483648.
Definition int4_max : Z := 2147483647.
Definition int4 (z : Z) : bool := (int4_min <=? z) && (z <=? int4_max).

(** The primary key [(time, id)]. *)
Definition pk_taken (t : sensor_data) (time id : Z) : bool :=
  existsb (fun r => (row_time r =? time) && (row_id r =? id)) (rows t).

(** [INSERT INTO sensor_data (time, sensor_id, value) VALUES (...)]:
    [id] takes [nextval] of its sequence, which fails with no value drawn
    once the next value would pass [int4_max]; otherwise the value is
    drawn even when the insert then fails. The primary key is checked,
    then the foreign key to [sensors(id)]; a failed insert adds no row. *)
Definition insert (sensor_exists : Z -> bool) (t : sensor_data) (time sensor_id : Z)
           (value : float64) : (insert_error * sensor_data) + sensor_data :=
  let id := id_seq t in
  let t1 := MkSensorData (rows t) (id + 1) in
  if int4_max <? id then inl (SequenceExhausted, t)
  else if pk_taken t time id then inl (PrimaryKeyConflict, t1)
  else if negb (sensor_exists sensor_id) then inl (ForeignKeyViolation, t1)
  else inr (MkSensorData (rows t ++ [MkDataRow id time sensor_id value]) (id + 1)).

(** Every id in the table was drawn from the sequence. *)
Definition ids_below_seq (t : sensor_data) : Prop :=
  Forall (fun r => row_id r < id_seq t) (rows t).
End Schema.

(** ** The Data Persister (src/services/data-persister/repository.go) *)
Module Persister.
Import Strconv.

(** [fmt.Sprintf("%d", n)]. *)
Definition itoa (z : Z) : string :=
  if z <? 0 then ("-" ++ GoTime.dec (- z))%string else GoTime.dec z.

(** [SensorEvent] of the persister (src/unnamed/part_002). *)
Record SensorEvent := MkSensorEvent { SensorID : Z; Value : float64; Timestamp : Z }.

(** A Valkey string value; go-redis writes a float64 argument as its
    decimal text. *)
Inductive kv_value := KvFloat (f : float64) | KvString (s : string).

Record kv_entry := MkKvEntry { kv_val : kv_value; kv_ttl : Z }.

Definition hour : Z := 3600000000000.

(** The two stores behind a [Repository]. *)
Record stores := MkStores { pg : Schema.sensor_data; kv : gmap string kv_entry }.

(** What the environment decides: whether each store answers, and
    which sensor ids exist (the foreign key). *)
Record env := MkEnv { pg_up : bool; valkey_up : bool; sensor_exists : Z -> bool }.

Inductive save_error := PgInsertFailed | ValkeyUpdateFailed.

Definition last_key (id : Z) : string := ("sensor:last:" ++ itoa id)%string.

(** [r.pgPool.Exec(ctx, INSERT ...)]: a connection to the server first;
    then pgx encodes the arguments for the parameter types the server
    reports, and an int64 [SensorID] outside the int4 range of
    [sensor_id] fails there, before the statement is executed. *)
Definition pg_exec (e : env) (t : Schema.sensor_data) (ev : SensorEvent)
  : Schema.sensor_data + Schema.sensor_data :=
  if negb (pg_up e) then inl t
  else if negb (Schema.int4 (SensorID ev)) then inl t
  else match Schema.insert (sensor_exists e) t (Timestamp ev) (SensorID ev) (Value ev) with
       | inl (_, t1) => inl t1
       | inr t' => inr t'
       end.

(** [r.redis.Set(ctx, key, value, ttl)]: overwrites the key. *)
Definition redis_set (e : env) (m : gmap string kv_entry) (key : string) (v : kv_value)
           (ttl : Z) : option (gmap string kv_entry) :=
  if valkey_up e then Some (<[key := MkKvEntry v ttl]> m) else None.

(** [Repository.SaveMeasurement(ctx, event)]. *)
Definition SaveMeasurement (e : env) (s : stores) (event : SensorEvent)
  : option save_error * stores :=
  match pg_exec e (pg s) event with
  | inl t1 => (Some PgInsertFailed, MkStores t1 (kv s))
  | inr t' =>
      let key := last_key (SensorID event) in
      match redis_set e (kv s) key (KvFloat (Value event)) (24 * hour) with
      | None => (Some ValkeyUpdateFailed, MkStores t' (kv s))
      | Some kv' => (None, MkStores t' kv')
      end
  end.
End Persister.

(** ** Refreshing the metadata cache (src/services/sensor-ingestor/metadata.go) *)
Module MetadataRefresh.
Import Strconv Ingestor.

(** One row of the query result: [rows.Scan] succeeds with the topic
    and the metadata, or fails on that row. *)
Inductive scan_row := RowOk (topic : string) (meta : SensorMetadata) | RowScanError.

(** [s.db.Query(ctx, query)]: an error, or the rows that [rows.Next]
    yields (an iteration error only ends the rows early; [rows.Err] is
    never consulted). *)
Inductive query_result := QueryError | QueryRows (rs : list scan_row).

(** The operations on the shared [cache] field, in program order. *)
Inductive cache_op := Lock | SetCache (m : gmap string SensorMetadata) | Unlock.

Inductive load_error := SQLQueryFailed.

(** The [for rows.Next()] loop filling [newCache]. A scan error is
    logged and the loop [continue]s, but pgx's [rows.Scan] has closed the
    rows on the error, so the next [rows.Next()] is false: the loop ends
    at the first row that fails to scan. *)
Fixpoint fill (rs : list scan_row) (newCache : gmap string SensorMetadata)
  : gmap string SensorMetadata :=
  match rs with
  | [] => newCache
  | RowOk topic meta :: rs' => fill rs' (<[topic := meta]> newCache)
  | RowScanError :: _ => newCache
  end.

(** [LoadSensors(ctx)]: the error it returns, the service afterwards and
    the operations it performed on the shared cache. *)
Definition LoadSensors (q : query_result) (s : MetadataService)
  : option load_error * MetadataService * list cache_op :=
  match q with
  | QueryError => (Some SQLQueryFailed, s, [])
  | QueryRows rs =>
      let newCache := fill rs ∅ in
      (None, MkMetadataService newCache, [Lock; SetCache newCache; Unlock])
  end.

Definition apply_op (m : gmap string SensorMetadata) (op : cache_op) : gmap string SensorMetadata :=
  match op with
  | SetCache m' => m'
  | _ => m
  end.

(** The map a concurrent [GetMetadata] sees after the first [k]
    operations of a refresh that started from [m]. *)
Definition published (m : gmap string SensorMetadata) (ops : list cache_op) (k : nat)
  : gmap string SensorMetadata :=
  fold_left apply_op (firstn k ops) m.

(** [StartAutoRefresh(ctx)]: one [LoadSensors] per minute tick, an error
    only logged; [ticks] lists the query results of the ticks that fire
    before [ctx] is done. *)
Fixpoint StartAutoRefresh (ticks : list query_result) (s : MetadataService) : MetadataService :=
  match ticks with
  | [] => s
  | q :: ticks' =>
      let '(_, s', _) := LoadSensors q s in
      StartAutoRefresh ticks' s'
  end.
End MetadataRefresh.

(** ** The sensor list of the home API (src/services/home-api/service.go,
    the [GetAllSensors] of the two-argument [NewService] that [main] uses) *)
Module SensorsApi.
Import Strconv.

Record SensorDTO := MkSensorDTO {
  DtoID : Z; Topic : string; Name : string; Type_ : string (* Type *); Unit : string;
  CurrentValue : option float64 (* *float64, nil = unset *) }.

(** The scanned columns [s.id, s.mqtt_topic, s.friendly_name, st.name, st.unit]. *)
Record sensor_row := MkSensorRow {
  r_id : Z; r_topic : string; r_name : string; r_type : string; r_unit : string }.

Inductive scan_result := ScanOk (r : sensor_row) | ScanError.

(** [s.redis.Get(ctx, key).Result()]: [redis.Nil] on a missing key, a
    transport error, or the stored string. *)
Inductive redis_reply := RNil | RErr | RVal (s : string).

(** The body of the loop for one scanned row. *)
Definition make_dto (get : string -> redis_reply) (r : sensor_row) : SensorDTO :=
  let key := Persister.last_key (r_id r) in
  let dto := MkSensorDTO (r_id r) (r_topic r) (r_name r) (r_type r) (r_unit r) None in
  match get key with
  | RVal valStr =>
      let val := fst (ParseFloat valStr) in
      MkSensorDTO (r_id r) (r_topic r) (r_name r) (r_type r) (r_unit r) (Some val)
  | _ => dto
  end.

Fixpoint collect_rows (get : string -> redis_reply) (rs : list scan_result)
  : option (list SensorDTO) :=
  match rs with
  | [] => Some []
  | ScanError :: _ => None
  | ScanOk r :: rs' =>
      match collect_rows get rs' with
      | Some ds => Some (make_dto get r :: ds)
      | None => None
      end
  end.

(** [GetAllSensors(ctx)]: [q] is the SQL result ([None] on a query
    error); the result is [None] on an error. *)
Definition GetAllSensors (q : option (list scan_result)) (get : string -> redis_reply)
  : option (list SensorDTO) :=
  match q with
  | None => None
  | Some rs => collect_rows get rs
  end.

(** [encoding/json] on a [SensorDTO]: a nil pointer is [null]. *)
Definition marshal_dto (dto : SensorDTO) : option json :=
  let fields cv := JObject [("id", JInt (DtoID dto)); ("topic", JString (Topic dto));
                            ("name", JString (Name dto)); ("type", JString (Type_ dto));
                            ("unit", JString (Unit dto)); ("current_value", cv)] in
  match CurrentValue dto with
  | None => Some (fields JNull)
  | Some v => option_map fields (Ingestor.marshal_float v)
  end.

Fixpoint json_field (k : string) (fs : list (string * json)) : option json :=
  match fs with
  | [] => None
  | (k', v) :: fs' => if String.eqb k k' then Some v else json_field k fs'
  end.

(** [json.Marshal] of the elements of a slice, failing when one fails. *)
Fixpoint marshal_dtos (ds : list SensorDTO) : option (list json) :=
  match ds with
  | [] => Some []
  | d :: ds' =>
      match marshal_dto d, marshal_dtos ds' with
      | Some j, Some js => Some (j :: js)
      | _, _ => None
      end
  end.

(** [json.NewEncoder(w).Encode(sensors)]: [sensors] stays a nil slice,
    encoded [null], when no row was appended. [None]: the encoding
    failed and nothing was written. *)
Definition encode_sensors (sensors : list SensorDTO) : option json :=
  match sensors with
  | [] => Some JNull
  | _ => option_map JArray (marshal_dtos sensors)
  end.

(** [handleListSensors]: the status of the response and the JSON body
    written ([None]: no JSON body). The status of a response whose
    handler never calls [WriteHeader] is 200. *)
Definition handleListSensors (q : option (list scan_result)) (get : string -> redis_reply)
  : Z * option json :=
  match GetAllSensors q get with
  | None => (HomeApi.StatusInternalServerError, None)
  | Some sensors => (HomeApi.StatusOK, encode_sensors sensors)
  end.

(** The [current_value] member of a marshalled DTO. *)
Definition current_value_json (dto : SensorDTO) : option json :=
  match marshal_dto dto with
  | Some (JObject fs) => json_field "current_value" fs
  | _ => None
  end.
End SensorsApi.

(** ** The Log Collector (src/services/log-collector/main.go, config.go) *)
Module LogCollector.

(** [strings.Split(s, "/")]. *)
Fixpoint Split (s : string) : list string :=
  match s with
  | EmptyString => [EmptyString]
  | String c s' =>
      let parts := Split s' in
      if Ascii.eqb c "/" then EmptyString :: parts
      else match parts with
           | p :: ps => String c p :: ps
           | [] => [String c EmptyString]
           end
  end.

(** The element loop of [filepath.Clean] on a Unix path, on a stack of
    the elements kept so far (top first). *)
Fixpoint clean_elems (rooted : bool) (es : list string) (stack : list string) : list string :=
  match es with
  | [] => stack
  | e :: es' =>
      if String.eqb e "" || String.eqb e "." then clean_elems rooted es' stack
      else if String.eqb e ".." then
        match stack with
        | top :: stack' => if String.eqb top ".." then clean_elems rooted es' (e :: stack)
                           else clean_elems rooted es' stack'
        | [] => if rooted then clean_elems rooted es' [] else clean_elems rooted es' [e]
        end
      else clean_elems rooted es' (e :: stack)
  end.

(** [filepath.Clean(path)]. *)
Definition Clean (path : string) : string :=
  let rooted := match path with String c _ => Ascii.eqb c "/" | EmptyString => false end in
  let body := String.concat "/" (rev (clean_elems rooted (Split path) [])) in
  let out := if rooted then ("/" ++ body)%string else body in
  if String.eqb out "" then "."%string else out.

(** [filepath.Join(elem...)]: the non-empty tail joined by "/" and
    cleaned. *)
Fixpoint Join (elem : list string) : string :=
  match elem with
  | [] => EmptyString
  | e :: es => if String.eqb e "" then Join es else Clean (String.concat "/" (e :: es))
  end.

(** [getEnv(key, fallback)] over the process environment. *)
Definition getEnv (environ : gmap string string) (key fallback : string) : string :=
  match environ !! key with
  | Some value => value
  | None => fallback
  end.

Module Config.
Record Config := MkConfig {
  MQTTBroker : string; MQTTClientID : string; LogTopic : string; LogDir : string }.

(** [LoadConfig()]. *)
Definition LoadConfig (environ : gmap string string) : Config :=
  MkConfig (getEnv environ "MQTT_BROKER" "tcp://mosquitto:1883")
           (getEnv environ "MQTT_CLIENT_ID" "log-collector")
           (getEnv environ "LOG_TOPIC" "logs/#")
           (getEnv environ "LOG_DIR" "/var/log/iot-app").
End Config.

(** The constant [LogDir] of main.go. *)
Definition LogDir : string := "/var/log/iot-app".

Definition newline : string := String (Ascii.ascii_of_nat 10) EmptyString.

(** Regular files, by path, with their contents. *)
Definition files := gmap string string.

(** [appendLogToFile(serviceName, data)]: open with
    [O_APPEND|O_CREATE|O_WRONLY], write the data, then "\n"; I/O
    failures are not modelled. *)
Definition appendLogToFile (fs : files) (serviceName data : string) : files :=
  let filename := Join [LogDir; (serviceName ++ ".log")%string] in
  let old := match fs !! filename with Some c => c | None => EmptyString end in
  <[filename := (old ++ data ++ newline)%string]> fs.

(** [messageHandler] for a message on [topic] with [payload]. *)
Definition messageHandler (fs : files) (topic payload : string) : files :=
  let parts := Split topic in
  if (length parts <? 2)%nat then fs
  else appendLogToFile fs (nth 1 parts EmptyString) payload.

(** [main] receiving [msgs] in order, in the process environment
    [environ]; [main] reads no environment variable. *)
Definition run (environ : gmap string string) (fs : files) (msgs : list (string * string)) : files :=
  fold_left (fun fs m => messageHandler fs (fst m) (snd m)) msgs fs.

(** The file the configuration table of the specification names for a
    service: [<LOG_DIR>/<service>.log], [LOG_DIR] defaulting to
    /var/log/iot-app. *)
Definition spec_log_path (environ : gmap string string) (service : string) : string :=
  Join [getEnv environ "LOG_DIR" "/var/log/iot-app"; (service ++ ".log")%string].
End LogCollector.

(** ** Observations on the results of [ProcessMessage] *)
Module IngestorFacts.
Import Strconv Ingestor.

Definition is_event (r : pm_error + json) : bool :=
  match r with inr _ => true | inl _ => false end.

(** The spec's [OutOfRange] failure: one of the two limit checks. *)
Definition is_out_of_range (r : pm_error + json) : bool :=
  match r with
  | inl (BelowMin _ _ _) | inl (AboveMax _ _ _) => true
  | _ => false
  end.

Definition is_malformed (r : pm_error + json) : bool :=
  match r with inl (MalformedValue _ _) => true | _ => false end.

Definition not_nan (f : float64) : bool :=
  match f with S754_nan => false | _ => true end.

Definition bounds_not_nan (meta : SensorMetadata) : bool :=
  match MinValue meta with Some lo => not_nan lo | None => true end &&
  match MaxValue meta with Some hi => not_nan hi | None => true end.

(** [(lo is absent or v >= lo)] and [(hi is absent or v <= hi)]. *)
Definition lo_ok (meta : SensorMetadata) (v : float64) : Prop :=
  match MinValue meta with None => True | Some lo => SFleb lo v = true end.
Definition hi_ok (meta : SensorMetadata) (v : float64) : Prop :=
  match MaxValue meta with None => True | Some hi => SFleb v hi = true end.

(** A present bound strictly violated. *)
Definition strictly_out (meta : SensorMetadata) (v : float64) : Prop :=
  (exists lo, MinValue meta = Some lo /\ SFltb v lo = true) \/
  (exists hi, MaxValue meta = Some hi /\ SFltb hi v = true).

Lemma SFcompare_swap (x y : float64) :
  SFcompare y x = option_map CompOpp (SFcompare x y).
Proof.
  destruct x as [sx|sx| |sx mx ex], y as [sy|sy| |sy my ey];
    try destruct sx; try destruct sy; simpl; try reflexivity;
    rewrite (Z.compare_antisym ex ey);
    destruct (Z.compare ex ey); simpl; try reflexivity;
    pose proof (Pos.compare_cont_antisym mx my Eq) as HA; simpl in HA;
    rewrite <- HA; destruct (Pos.compare_cont Eq mx my); reflexivity.
Qed.

Lemma SFcompare_not_nan (x y : float64) :
  not_nan x = true -> not_nan y = true -> exists c, SFcompare x y = Some c.
Proof.
  destruct x as [sx|sx| |sx mx ex], y as [sy|sy| |sy my ey];
    simpl; intros; try discriminate; eexists; reflexivity.
Qed.

(** Not below is at least, away from NaN. *)
Lemma SFltb_false_leb (v lo : float64) :
  not_nan v = true -> not_nan lo = true ->
  SFltb v lo = false <-> SFleb lo v = true.
Proof.
  intros Hv Hlo. destruct (SFcompare_not_nan v lo Hv Hlo) as [c Hc].
  unfold SFltb, SFleb. rewrite (SFcompare_swap v lo), Hc.
  destruct c; simpl; split; congruence.
Qed.

Lemma finite_not_nan (v : float64) : is_finite v = true -> not_nan v = true.
Proof. destruct v; simpl; congruence. Qed.

Lemma nan_not_lt (x : float64) : SFltb S754_nan x = false /\ SFltb x S754_nan = false.
Proof. destruct x; split; reflexivity. Qed.

Lemma marshal_event_finite (ev : SensorEvent) :
  is_finite (Value ev) = true -> GoTime.format_rfc3339nano (Timestamp ev) <> None ->
  exists j, marshal_event ev = Some j.
Proof.
  intros Hf Ht. unfold marshal_event, marshal_float. rewrite Hf.
  destruct (GoTime.format_rfc3339nano (Timestamp ev)); [eexists; reflexivity | congruence].
Qed.

Lemma marshal_event_not_finite (ev : SensorEvent) :
  is_finite (Value ev) = false -> marshal_event ev = None.
Proof. intros Hf. unfold marshal_event, marshal_float. now rewrite Hf. Qed.

Lemma check_min_none_iff (meta : SensorMetadata) (v : float64) :
  not_nan v = true ->
  match MinValue meta with Some lo => not_nan lo | None => true end = true ->
  check_min meta v = None <-> lo_ok meta v.
Proof.
  intros Hv Hlo. unfold check_min, lo_ok.
  destruct (MinValue meta) as [lo|]; [|tauto].
  rewrite <- (SFltb_false_leb v lo Hv Hlo).
  destruct (SFltb v lo); split; congruence.
Qed.

Lemma check_max_none_iff (meta : SensorMetadata) (v : float64) :
  not_nan v = true ->
  match MaxValue meta with Some hi => not_nan hi | None => true end = true ->
  check_max meta v = None <-> hi_ok meta v.
Proof.
  intros Hv Hhi. unfold check_max, hi_ok.
  destruct (MaxValue meta) as [hi|]; [|tauto].
  rewrite <- (SFltb_false_leb hi v Hhi Hv).
  destruct (SFltb hi v); split; congruence.
Qed.

Lemma check_min_some (meta : SensorMetadata) (v : float64) (e : pm_error) :
  check_min meta v = Some e -> exists lo, e = BelowMin v lo (ID meta).
Proof.
  unfold check_min. destruct (MinValue meta) as [lo|]; [|discriminate].
  destruct (SFltb v lo); intros H; [injection H as <-; eauto | discriminate].
Qed.

Lemma check_max_some (meta : SensorMetadata) (v : float64) (e : pm_error) :
  check_max meta v = Some e -> exists hi, e = AboveMax v hi (ID meta).
Proof.
  unfold check_max. destruct (MaxValue meta) as [hi|]; [|discriminate].
  destruct (SFltb hi v); intros H; [injection H as <-; eauto | discriminate].
Qed.

(** [ProcessMessage] once the topic is found and the payload parsed. *)
Lemma ProcessMessage_parsed (now : Z) (topic payload : string) (svc : MetadataService)
      (meta : SensorMetadata) (v : float64) :
  GetMetadata svc topic = Some meta ->
  ParseFloat payload = (v, None) ->
  ProcessMessage now topic payload svc =
    match check_min meta v with
    | Some e => inl e
    | None =>
        match check_max meta v with
        | Some e => inl e
        | None =>
            match marshal_event (MkSensorEvent (ID meta) v now) with
            | Some j => inr j
            | None => inl MarshalError
            end
        end
    end.
Proof. intros Hm Hp. unfold ProcessMessage. now rewrite Hm, Hp. Qed.
End IngestorFacts.

(** ** What [ParseFloat] reads: never a whitespace byte *)
Module ParseFacts.
Import Chars Strconv.

(** ASCII white space as Go's [unicode.IsSpace] has it: ' ', \t, \n,
    \v, \f, \r. *)
Definition is_space (c : ascii) : bool :=
  ((code c =? 32) || ((9 <=? code c) && (code c <=? 13)))%N.

Fixpoint nospace (s : string) : bool :=
  match s with
  | EmptyString => true
  | String c s' => negb (is_space c) && nospace s'
  end.

(** Number of leading bytes that are not white space. *)
Fixpoint lead_ns (s : string) : nat :=
  match s with
  | EmptyString => O
  | String c s' => if is_space c then O else S (lead_ns s')
  end.

(** stdpp makes [String.append] [simpl never]: its two equations. *)
Lemma str_app_empty (b : string) : ("" ++ b = b)%string.
Proof. reflexivity. Qed.

Lemma str_app_cons (x : ascii) (a b : string) : (String x a ++ b = String x (a ++ b))%string.
Proof. reflexivity. Qed.

Lemma str_app_assoc (a b c : string) : (a ++ (b ++ c) = (a ++ b) ++ c)%string.
Proof. induction a; [reflexivity|]. rewrite !str_app_cons. congruence. Qed.

Lemma str_app_nil (a : string) : (a ++ "" = a)%string.
Proof. induction a; [reflexivity|]. rewrite str_app_cons. congruence. Qed.

Lemma str_length_app (a b : string) :
  String.length (a ++ b) = (String.length a + String.length b)%nat.
Proof. induction a; [reflexivity|]. rewrite str_app_cons. simpl. congruence. Qed.

Lemma nospace_app (a b : string) : nospace (a ++ b) = nospace a && nospace b.
Proof.
  induction a; [reflexivity|]. rewrite str_app_cons. simpl. rewrite IHa. apply andb_assoc.
Qed.

Lemma nospace_cons (c : ascii) (a : string) :
  is_space c = false -> nospace a = true -> nospace (String c a) = true.
Proof. intros H1 H2. simpl. now rewrite H1, H2. Qed.

Lemma digit_not_space (c : ascii) : is_digit c = true -> is_space c = false.
Proof.
  unfold is_digit, is_space. intros H.
  apply andb_true_iff in H as [H1 H2]. apply N.leb_le in H1, H2.
  apply orb_false_iff. split.
  - apply N.eqb_neq. lia.
  - apply andb_false_iff. right. apply N.leb_gt. lia.
Qed.

Lemma hex_letter_not_space (c : ascii) : is_hex_letter c = true -> is_space c = false.
Proof. destruct c as [[] [] [] [] [] [] [] []]; intros H; (reflexivity || discriminate H). Qed.

Lemma eqb_not_space (c d : ascii) :
  Ascii.eqb c d = true -> is_space d = false -> is_space c = false.
Proof. intros H Hd. apply Ascii.eqb_eq in H. now subst. Qed.

Lemma lower_letter_not_space (c d : ascii) :
  Ascii.eqb (lower c) d = true -> (97 <=? code d)%N = true -> is_space c = false.
Proof.
  intros H Hd. apply Ascii.eqb_eq in H. subst d.
  destruct c as [[] [] [] [] [] [] [] []]; (reflexivity || discriminate Hd).
Qed.

Lemma space_not_upper (c : ascii) : is_space c = true -> is_upper c = false.
Proof. destruct c as [[] [] [] [] [] [] [] []]; intros H; (reflexivity || discriminate H). Qed.

(** Each scanner stops at the first white space byte: what it consumed
    is a prefix without white space. *)
Definition consumes_nospace (s rest : string) : Prop :=
  exists pre, s = (pre ++ rest)%string /\ nospace pre = true.

Lemma consumes_refl (s : string) : consumes_nospace s s.
Proof. exists EmptyString. split; reflexivity. Qed.

Lemma consumes_cons (c : ascii) (s rest : string) :
  is_space c = false -> consumes_nospace s rest -> consumes_nospace (String c s) rest.
Proof.
  intros Hc [pre [-> Hp]]. exists (String c pre). split; [reflexivity|].
  now apply nospace_cons.
Qed.

Lemma consumes_trans (a b c : string) :
  consumes_nospace a b -> consumes_nospace b c -> consumes_nospace a c.
Proof.
  intros [p [-> Hp]] [q [-> Hq]]. exists (p ++ q)%string. split.
  - apply str_app_assoc.
  - rewrite nospace_app, Hp, Hq. reflexivity.
Qed.

Lemma read_mant_consumes (hex : bool) (s : string) (st st' : mant_state) (rest : string) :
  read_mant hex s st = (st', rest) -> consumes_nospace s rest.
Proof.
  revert st. induction s as [|c s IH]; intros st H; simpl in H.
  - injection H as _ <-. apply consumes_refl.
  - destruct (Ascii.eqb c "_") eqn:E1.
    { apply consumes_cons; [apply (eqb_not_space c "_" E1); reflexivity|]. eapply IH; eauto. }
    destruct (Ascii.eqb c ".") eqn:E2.
    { destruct (ms_sawdot st).
      - injection H as _ <-. apply consumes_refl.
      - apply consumes_cons; [apply (eqb_not_space c "." E2); reflexivity|]. eapply IH; eauto. }
    destruct (is_digit c) eqn:E3.
    { apply consumes_cons; [apply digit_not_space; assumption|]. eapply IH; eauto. }
    destruct (hex && is_hex_letter c) eqn:E4.
    { apply andb_true_iff in E4 as [_ E4].
      apply consumes_cons; [apply hex_letter_not_space; assumption|]. eapply IH; eauto. }
    injection H as _ <-. apply consumes_refl.
Qed.

Lemma read_exp_digits_consumes (s : string) (e : Z) (u : bool) (e' : Z) (u' : bool) (rest : string) :
  read_exp_digits s e u = (e', u', rest) -> consumes_nospace s rest.
Proof.
  revert e u. induction s as [|c s IH]; intros e u H; simpl in H.
  - injection H as _ _ <-. apply consumes_refl.
  - destruct (Ascii.eqb c "_") eqn:E1.
    { apply consumes_cons; [apply (eqb_not_space c "_" E1); reflexivity|]. eapply IH; eauto. }
    destruct (is_digit c) eqn:E3.
    { apply consumes_cons; [apply digit_not_space; assumption|]. eapply IH; eauto. }
    injection H as _ _ <-. apply consumes_refl.
Qed.

Lemma read_sign_consumes (s : string) (neg : bool) (rest : string) :
  read_sign s = (neg, rest) -> consumes_nospace s rest.
Proof.
  destruct s as [|c t]; simpl; intros H.
  - injection H as _ <-. apply consumes_refl.
  - destruct (Ascii.eqb c "+") eqn:E1.
    { injection H as _ <-. apply consumes_cons; [apply (eqb_not_space c "+" E1); reflexivity|].
      apply consumes_refl. }
    destruct (Ascii.eqb c "-") eqn:E2.
    { injection H as _ <-. apply consumes_cons; [apply (eqb_not_space c "-" E2); reflexivity|].
      apply consumes_refl. }
    injection H as _ <-. apply consumes_refl.
Qed.

Lemma read_exp_sign_consumes (s : string) (z : Z) (rest : string) :
  read_exp_sign s = (z, rest) -> consumes_nospace s rest.
Proof.
  destruct s as [|c t]; simpl; intros H.
  - injection H as _ <-. apply consumes_refl.
  - destruct (Ascii.eqb c "+") eqn:E1.
    { injection H as _ <-. apply consumes_cons; [apply (eqb_not_space c "+" E1); reflexivity|].
      apply consumes_refl. }
    destruct (Ascii.eqb c "-") eqn:E2.
    { injection H as _ <-. apply consumes_cons; [apply (eqb_not_space c "-" E2); reflexivity|].
      apply consumes_refl. }
    injection H as _ <-. apply consumes_refl.
Qed.

Lemma read_base_prefix_consumes (s : string) (hex : bool) (rest : string) :
  read_base_prefix s = (hex, rest) -> consumes_nospace s rest.
Proof.
  unfold read_base_prefix. intros H.
  destruct s as [|c [|x [|y t]]];
    try (injection H as _ <-; apply consumes_refl);
  destruct c as [[] [] [] [] [] [] [] []]; simpl in H;
    try (injection H as _ <-; apply consumes_refl).
  destruct (Ascii.eqb (lower x) "x") eqn:E.
  - injection H as _ <-. apply consumes_cons; [reflexivity|].
    apply consumes_cons; [apply (lower_letter_not_space x "x" E); reflexivity|].
    apply consumes_refl.
  - injection H as _ <-. apply consumes_refl.
Qed.

Lemma read_finish_rest (s0 : string) (neg hex : bool) (st : mant_state) (e : Z)
      (u : bool) (rest : string) (r : read_result) :
  read_finish s0 neg hex st e u rest = Some r -> rr_rest r = rest.
Proof.
  unfold read_finish. destruct (u && _); intros H; [discriminate|].
  injection H as <-. reflexivity.
Qed.

Lemma read_float_consumes (s0 : string) (r : read_result) :
  read_float s0 = Some r -> consumes_nospace s0 (rr_rest r).
Proof.
  unfold read_float.
  destruct (read_sign s0) as [neg s1] eqn:E1.
  destruct (read_base_prefix s1) as [hex s2] eqn:E2.
  destruct (read_mant hex s2 ms_init) as [st s3] eqn:E3.
  pose proof (consumes_trans _ _ _ (read_sign_consumes _ _ _ E1)
                (consumes_trans _ _ _ (read_base_prefix_consumes _ _ _ E2)
                   (read_mant_consumes _ _ _ _ _ E3))) as H03.
  destruct (negb (ms_sawdigits st)); [discriminate|].
  destruct s3 as [|c s4].
  - destruct hex; [discriminate|]. intros H. now rewrite (read_finish_rest _ _ _ _ _ _ _ _ H).
  - destruct (Ascii.eqb (lower c) (if hex then "p" else "e")) eqn:Ee.
    + assert (Hc : is_space c = false)
        by (destruct hex; eapply lower_letter_not_space; [exact Ee | reflexivity | exact Ee | reflexivity]).
      destruct (read_exp_sign s4) as [esign s5] eqn:E5.
      destruct s5 as [|d s5']; [discriminate|].
      destruct (is_digit d); [|discriminate].
      destruct (read_exp_digits (String d s5') 0 false) as [[e u] s6] eqn:E6.
      intros H. rewrite (read_finish_rest _ _ _ _ _ _ _ _ H).
      eapply consumes_trans; [exact H03|].
      apply consumes_cons; [exact Hc|].
      eapply consumes_trans; [exact (read_exp_sign_consumes _ _ _ E5)|].
      exact (read_exp_digits_consumes _ _ _ _ _ _ E6).
    + destruct hex; [discriminate|]. intros H. now rewrite (read_finish_rest _ _ _ _ _ _ _ _ H).
Qed.

Lemma common_prefix_lead_ns (s p : string) :
  nospace p = true -> (common_prefix_len_ci s p <= lead_ns s)%nat.
Proof.
  revert p. induction s as [|c s IH]; intros p Hp; simpl; [lia|].
  destruct p as [|q p]; [lia|].
  simpl in Hp. apply andb_true_iff in Hp as [Hq Hp].
  destruct (is_space c) eqn:Ec.
  - rewrite (space_not_upper c Ec).
    destruct (Ascii.eqb c q) eqn:E; [|lia].
    apply Ascii.eqb_eq in E. subst q. rewrite Ec in Hq. discriminate.
  - destruct (Ascii.eqb _ q); [|lia]. specialize (IH p Hp). lia.
Qed.

Lemma special_inf_lead_ns (sign : bool) (nsign : nat) (t : string) (f : float64) (n : nat) :
  special_inf sign nsign t = Some (f, n) -> (n <= nsign + lead_ns t)%nat.
Proof.
  unfold special_inf. intros H.
  pose proof (common_prefix_lead_ns t "infinity" eq_refl) as Hl.
  destruct ((3 <? _)%nat && (_ <? 8)%nat) eqn:E.
  - apply andb_true_iff in E as [E _]. apply Nat.ltb_lt in E.
    destruct ((3 =? 3)%nat || _); [|discriminate]. injection H as _ <-. lia.
  - destruct ((_ =? 3)%nat || (_ =? 8)%nat); [|discriminate]. injection H as _ <-. lia.
Qed.

Lemma special_lead_ns (s : string) (f : float64) (n : nat) :
  special s = Some (f, n) -> (n <= lead_ns s)%nat.
Proof.
  unfold special. destruct s as [|c t]; [discriminate|].
  destruct (Ascii.eqb c "+") eqn:E1.
  { intros H. apply special_inf_lead_ns in H.
    cbn [lead_ns]. rewrite (eqb_not_space c "+" E1 eq_refl). lia. }
  destruct (Ascii.eqb c "-") eqn:E2.
  { intros H. apply special_inf_lead_ns in H.
    cbn [lead_ns]. rewrite (eqb_not_space c "-" E2 eq_refl). lia. }
  destruct (Ascii.eqb c "i" || Ascii.eqb c "I").
  { intros H. apply special_inf_lead_ns in H. exact H. }
  destruct (Ascii.eqb c "n" || Ascii.eqb c "N"); [|discriminate].
  pose proof (common_prefix_lead_ns (String c t) "nan" eq_refl) as Hl.
  destruct (common_prefix_len_ci (String c t) "nan" =? 3)%nat eqn:E; [|discriminate].
  apply Nat.eqb_eq in E. intros H. injection H as _ <-. lia.
Qed.

Lemma lead_ns_trailing_space (s : string) (c : ascii) :
  is_space c = true -> (lead_ns (s ++ String c "") <= String.length s)%nat.
Proof.
  intros Hc. induction s as [|d s IH].
  - simpl. now rewrite Hc.
  - rewrite str_app_cons. simpl. destruct (is_space d); lia.
Qed.

Lemma nospace_trailing_space (s : string) (c : ascii) :
  is_space c = true -> nospace (s ++ String c "") = false.
Proof.
  intros Hc. rewrite nospace_app. simpl. rewrite Hc. apply andb_false_r.
Qed.

(** No trimming: a trailing white space byte is a syntax error. *)
Lemma ParseFloat_trailing_space (s : string) (c : ascii) :
  is_space c = true -> ParseFloat (s ++ String c "") = (S754_zero false, Some ErrSyntax).
Proof.
  intros Hc. unfold ParseFloat.
  destruct (special (s ++ String c "")) as [[f n]|] eqn:Es.
  - apply special_lead_ns in Es.
    pose proof (lead_ns_trailing_space s c Hc).
    rewrite str_length_app. simpl.
    destruct (n =? String.length s + 1)%nat eqn:E; [|reflexivity].
    apply Nat.eqb_eq in E. lia.
  - destruct (read_float (s ++ String c "")) as [r|] eqn:Er; [|reflexivity].
    apply read_float_consumes in Er. destruct Er as [pre [Hpre Hns]].
    destruct (rr_rest r) eqn:Erest; [|reflexivity].
    rewrite str_app_nil in Hpre. rewrite <- Hpre in Hns.
    rewrite nospace_trailing_space in Hns by exact Hc. discriminate.
Qed.

(** No trimming: a leading white space byte is a syntax error. *)
Lemma ParseFloat_leading_space (s : string) (c : ascii) :
  is_space c = true -> ParseFloat (String c s) = (S754_zero false, Some ErrSyntax).
Proof.
  destruct c as [[] [] [] [] [] [] [] []]; intros H; try discriminate H; reflexivity.
Qed.
End ParseFacts.

(** ** Claims on [ProcessMessage] *)
Module IngestorClaims.
Import Strconv Ingestor IngestorFacts.

Definition meta_nobounds : SensorMetadata := MkSensorMetadata 5 None None.
Definition meta_bounds : SensorMetadata :=
  MkSensorMetadata 5 (Some (of_Z (-20))) (Some (of_Z 80)).
Definition svc_of (meta : SensorMetadata) : MetadataService :=
  MkMetadataService {[ "sensors/t"%string := meta ]}.

Example parse_24_5 : ParseFloat "24.5" = (S754_finite false 6896136929411072 (-48), None).
Proof. reflexivity. Qed.
Example process_at_max : is_event (ProcessMessage 0 "sensors/t" "80" (svc_of meta_bounds)) = true.
Proof. reflexivity. Qed.
Example process_at_min : is_event (ProcessMessage 0 "sensors/t" "-20.0" (svc_of meta_bounds)) = true.
Proof. reflexivity. Qed.
Example process_above_max :
  is_out_of_range (ProcessMessage 0 "sensors/t" "80.000001" (svc_of meta_bounds)) = true.
Proof. reflexivity. Qed.

(** C1 (counterexample): the payload "Inf" on a topic with no bounds
    parses to +Inf, the claimed condition holds (both bounds absent), yet
    no event is produced: [json.Marshal] rejects the infinite value. *)
Lemma ProcessMessage_inf_unbounded_no_event :
  GetMetadata (svc_of meta_nobounds) "sensors/t" = Some meta_nobounds /\
  ParseFloat "Inf" = (S754_infinity false, None) /\
  ~ (is_event (ProcessMessage 0 "sensors/t" "Inf" (svc_of meta_nobounds)) = true <->
     lo_ok meta_nobounds (S754_infinity false) /\ hi_ok meta_nobounds (S754_infinity false)).
Proof.
  split; [reflexivity|]. split; [reflexivity|].
  vm_compute. intros [_ H]. specialize (H (conj I I)). discriminate.
Qed.

(** C1 (amended): for a known topic whose payload parses to [v], with
    bounds that are not NaN and a current time Go can encode: when [v]
    is finite, an event is produced iff (lo absent or v >= lo) and (hi
    absent or v <= hi), so a value equal to a bound is accepted; a value
    strictly outside a present bound yields an OutOfRange failure
    (BelowMin / AboveMax); a non-finite [v] (+-Inf, NaN) never yields an
    event. *)
Theorem ProcessMessage_range_check (now : Z) (topic payload : string)
        (svc : MetadataService) (meta : SensorMetadata) (v : float64) :
  GetMetadata svc topic = Some meta ->
  ParseFloat payload = (v, None) ->
  bounds_not_nan meta = true ->
  GoTime.format_rfc3339nano now <> None ->
  (is_finite v = true ->
     (is_event (ProcessMessage now topic payload svc) = true <-> lo_ok meta v /\ hi_ok meta v))
  /\ (strictly_out meta v -> is_out_of_range (ProcessMessage now topic payload svc) = true)
  /\ (is_finite v = false -> is_event (ProcessMessage now topic payload svc) = false).
Proof.
  intros Hm Hp Hb Hnow.
  rewrite (ProcessMessage_parsed now topic payload svc meta v Hm Hp).
  apply andb_true_iff in Hb. destruct Hb as [Hlo Hhi].
  split; [|split].
  - intros Hf. pose proof (finite_not_nan v Hf) as Hv.
    destruct (marshal_event_finite (MkSensorEvent (ID meta) v now) Hf Hnow) as [j Hj].
    rewrite <- (check_min_none_iff meta v Hv Hlo), <- (check_max_none_iff meta v Hv Hhi).
    destruct (check_min meta v); [split; [discriminate | intros [[=] _]]|].
    destruct (check_max meta v); [split; [discriminate | intros [_ [=]]]|].
    rewrite Hj. simpl. tauto.
  - intros Hout.
    destruct (check_min meta v) as [e|] eqn:Emin.
    + destruct (check_min_some meta v e Emin) as [lo Hlo'].
      subst e. reflexivity.
    + destruct Hout as [[lo [Hl Hlt]] | [hi [Hh Hlt]]].
      * unfold check_min in Emin. rewrite Hl, Hlt in Emin. discriminate.
      * unfold check_max. rewrite Hh, Hlt. reflexivity.
  - intros Hf. rewrite (marshal_event_not_finite (MkSensorEvent (ID meta) v now) Hf).
    destruct (check_min meta v); [reflexivity|].
    destruct (check_max meta v); reflexivity.
Qed.

(** Witness of [ProcessMessage_range_check] at the upper bound 80. *)
Lemma ProcessMessage_range_check_witness :
  GetMetadata (svc_of meta_bounds) "sensors/t" = Some meta_bounds /\
  ParseFloat "80" = (of_Z 80, None) /\
  bounds_not_nan meta_bounds = true /\
  GoTime.format_rfc3339nano 0 <> None /\
  (is_event (ProcessMessage 0 "sensors/t" "80" (svc_of meta_bounds)) = true <->
     lo_ok meta_bounds (of_Z 80) /\ hi_ok meta_bounds (of_Z 80)).
Proof.
  assert (H1 : GetMetadata (svc_of meta_bounds) "sensors/t" = Some meta_bounds) by reflexivity.
  assert (H2 : ParseFloat "80" = (of_Z 80, None)) by (vm_compute; reflexivity).
  assert (H3 : bounds_not_nan meta_bounds = true) by reflexivity.
  assert (H4 : GoTime.format_rfc3339nano 0 <> None) by (vm_compute; discriminate).
  split; [exact H1|]. split; [exact H2|]. split; [exact H3|]. split; [exact H4|].
  exact (proj1 (ProcessMessage_range_check 0 "sensors/t" "80" (svc_of meta_bounds)
                  meta_bounds (of_Z 80) H1 H2 H3 H4) eq_refl).
Defined.

(** C2 (counterexample): the number 24.5 surrounded by a leading space
    is not decoded: the payload " 24.5" fails with [MalformedValue],
    while "24.5" on the same topic yields an event. *)
Lemma ProcessMessage_space_padded_rejected :
  ProcessMessage 0 "sensors/t" " 24.5" (svc_of meta_bounds) = inl (MalformedValue " 24.5" ErrSyntax) /\
  is_event (ProcessMessage 0 "sensors/t" "24.5" (svc_of meta_bounds)) = true.
Proof. split; reflexivity. Qed.

(** C2 (amended): for a known topic, [ProcessMessage] decodes the whole
    payload with [strconv.ParseFloat] and does not trim it: it fails
    with [MalformedValue] exactly when [ParseFloat] reports an error
    (a syntax error, or a range error on overflow), and every payload
    that begins or ends with a white space byte fails with
    [MalformedValue] (a syntax error). *)
Theorem ProcessMessage_whole_payload (now : Z) (topic payload : string)
        (svc : MetadataService) (meta : SensorMetadata) :
  GetMetadata svc topic = Some meta ->
  (is_malformed (ProcessMessage now topic payload svc) = true <->
     snd (ParseFloat payload) <> None)
  /\ (forall (c : ascii) (s : string), ParseFacts.is_space c = true ->
        (payload = String c s \/ payload = (s ++ String c "")%string) ->
        ProcessMessage now topic payload svc = inl (MalformedValue payload ErrSyntax)).
Proof.
  intros Hm. split.
  - unfold ProcessMessage. rewrite Hm.
    destruct (ParseFloat payload) as [v [e|]]; simpl.
    + split; [intros _; discriminate | reflexivity].
    + split; [|intros H; contradiction]. intros H; exfalso.
      destruct (check_min meta v) as [e|] eqn:Emin.
      { destruct (check_min_some meta v e Emin) as [lo ->]. discriminate H. }
      destruct (check_max meta v) as [e|] eqn:Emax.
      { destruct (check_max_some meta v e Emax) as [hi ->]. discriminate H. }
      destruct (marshal_event _); discriminate H.
  - intros c s Hc [-> | ->]; unfold ProcessMessage; rewrite Hm.
    + now rewrite (ParseFacts.ParseFloat_leading_space s c Hc).
    + now rewrite (ParseFacts.ParseFloat_trailing_space s c Hc).
Qed.

(** Witness of [ProcessMessage_whole_payload] on a trailing newline. *)
Lemma ProcessMessage_whole_payload_witness :
  GetMetadata (svc_of meta_bounds) "sensors/t" = Some meta_bounds /\
  ProcessMessage 0 "sensors/t" "24.5
" (svc_of meta_bounds)
    = inl (MalformedValue "24.5
" ErrSyntax).
Proof.
  assert (H1 : GetMetadata (svc_of meta_bounds) "sensors/t" = Some meta_bounds) by reflexivity.
  split; [exact H1|].
  apply (proj2 (ProcessMessage_whole_payload 0 "sensors/t" "24.5
" (svc_of meta_bounds)
                  meta_bounds H1) (Chars.chr 10) "24.5").
  - reflexivity.
  - right. reflexivity.
Defined.

(** C3: a topic absent from the metadata cache fails with
    [UnknownTopic], whatever the payload: the lookup comes before the
    decoding, and no event is produced. *)
Theorem ProcessMessage_unknown_topic (now : Z) (topic payload : string)
        (svc : MetadataService) :
  GetMetadata svc topic = None ->
  ProcessMessage now topic payload svc = inl (UnknownTopic topic) /\
  is_event (ProcessMessage now topic payload svc) = false.
Proof. intros Hm. unfold ProcessMessage. rewrite Hm. split; reflexivity. Qed.

Lemma ProcessMessage_unknown_topic_witness :
  GetMetadata (svc_of meta_bounds) "sensors/other" = None /\
  ProcessMessage 0 "sensors/other" "NaN" (svc_of meta_bounds)
    = inl (UnknownTopic "sensors/other").
Proof.
  assert (H : GetMetadata (svc_of meta_bounds) "sensors/other" = None) by reflexivity.
  split; [exact H|].
  exact (proj1 (ProcessMessage_unknown_topic 0 "sensors/other" "NaN" (svc_of meta_bounds) H)).
Defined.

(** C10 (counterexample): with both bounds present, the payload "NaN"
    passes both limit checks, but no normalized event is produced:
    [json.Marshal] rejects the NaN value. *)
Lemma ProcessMessage_nan_no_event :
  ParseFloat "NaN" = (S754_nan, None) /\
  check_min meta_bounds S754_nan = None /\ check_max meta_bounds S754_nan = None /\
  ProcessMessage 0 "sensors/t" "NaN" (svc_of meta_bounds) = inl MarshalError.
Proof. repeat split; reflexivity. Qed.

(** C10 (amended): for every known topic, whatever its bounds, the
    payload "NaN" parses as NaN, both limit comparisons ([v < min],
    [v > max]) are false so neither OutOfRange check fires, and the
    serialization of the event fails: [ProcessMessage] returns the
    JSON error, neither OutOfRange nor MalformedValue, and no event. *)
Theorem ProcessMessage_nan_passes_checks (now : Z) (topic : string)
        (svc : MetadataService) (meta : SensorMetadata) :
  GetMetadata svc topic = Some meta ->
  ParseFloat "NaN" = (S754_nan, None) /\
  check_min meta S754_nan = None /\ check_max meta S754_nan = None /\
  ProcessMessage now topic "NaN" svc = inl MarshalError.
Proof.
  intros Hm.
  assert (Hmin : check_min meta S754_nan = None).
  { unfold check_min. destruct (MinValue meta) as [lo|]; [now rewrite (proj1 (nan_not_lt lo))|reflexivity]. }
  assert (Hmax : check_max meta S754_nan = None).
  { unfold check_max. destruct (MaxValue meta) as [hi|]; [now rewrite (proj2 (nan_not_lt hi))|reflexivity]. }
  split; [reflexivity|]. split; [exact Hmin|]. split; [exact Hmax|].
  rewrite (ProcessMessage_parsed now topic "NaN" svc meta S754_nan Hm eq_refl), Hmin, Hmax.
  reflexivity.
Qed.

Lemma ProcessMessage_nan_passes_checks_witness :
  GetMetadata (svc_of meta_bounds) "sensors/t" = Some meta_bounds /\
  ProcessMessage 1700000000000000000 "sensors/t" "NaN" (svc_of meta_bounds) = inl MarshalError.
Proof.
  assert (H : GetMetadata (svc_of meta_bounds) "sensors/t" = Some meta_bounds) by reflexivity.
  split; [exact H|].
  exact (proj2 (proj2 (proj2 (ProcessMessage_nan_passes_checks 1700000000000000000
                                "sensors/t" (svc_of meta_bounds) meta_bounds H)))).
Defined.
End IngestorClaims.

(** ** Claims on the history endpoint *)
Module HistoryClaims.
Import HomeApi.

(** A store that answers every query with no rows. *)
Definition no_rows : history_db := fun _ _ => Some [].

(** C4 (counterexample): "7d", which the comment of [GetHistory] lists
    among the accepted windows, is not a Go duration (there is no day
    unit), and the response to a request with [range=7d] has status 500,
    not 400. *)
Lemma handleGetHistory_7d_500 :
  Duration.ParseDuration "7d" = inl (Duration.UnknownUnit "d") /\
  GetHistory no_rows 0 5 "7d" = inl (BadDuration (Duration.UnknownUnit "d")) /\
  handleGetHistory no_rows 0 "5" "7d" = StatusInternalServerError.
Proof. split; [|split]; vm_compute; reflexivity. Qed.

(** C4 (the code's behaviour): [GetHistory] parses its window with
    [time.ParseDuration], which accepts "1h", "24h" and "30m"; when the
    sensor id is a valid integer and a non-empty [range] fails to parse,
    [GetHistory] fails with that parse error and the response to
    [GET /api/sensors/{id}/history] has status 500 (Internal Server
    Error), whatever the store holds. *)
Theorem handleGetHistory_bad_range (db : history_db) (now id : Z)
        (idStr rangeParam : string) (e : Duration.dur_error) :
  ParseInt idStr = Some id ->
  rangeParam <> ""%string ->
  Duration.ParseDuration rangeParam = inl e ->
  Duration.ParseDuration "1h" = inr 3600000000000 /\
  Duration.ParseDuration "24h" = inr 86400000000000 /\
  Duration.ParseDuration "30m" = inr 1800000000000 /\
  GetHistory db now id rangeParam = inl (BadDuration e) /\
  handleGetHistory db now idStr rangeParam = StatusInternalServerError.
Proof.
  intros Hid Hne Hd.
  assert (Hg : GetHistory db now id rangeParam = inl (BadDuration e)).
  { unfold GetHistory. now rewrite Hd. }
  split; [vm_compute; reflexivity|]. split; [vm_compute; reflexivity|].
  split; [vm_compute; reflexivity|]. split; [exact Hg|].
  unfold handleGetHistory. rewrite Hid.
  apply String.eqb_neq in Hne. rewrite Hne, Hg. reflexivity.
Qed.

Lemma handleGetHistory_bad_range_witness :
  ParseInt "5" = Some 5 /\ Duration.ParseDuration "7d" = inl (Duration.UnknownUnit "d") /\
  handleGetHistory no_rows 0 "5" "7d" = StatusInternalServerError.
Proof.
  assert (H1 : ParseInt "5" = Some 5) by (vm_compute; reflexivity).
  assert (H2 : "7d"%string <> ""%string) by discriminate.
  assert (H3 : Duration.ParseDuration "7d" = inl (Duration.UnknownUnit "d"))
    by (vm_compute; reflexivity).
  split; [exact H1|]. split; [exact H3|].
  exact (proj2 (proj2 (proj2 (proj2
    (handleGetHistory_bad_range no_rows 0 5 "5" "7d" (Duration.UnknownUnit "d") H1 H2 H3))))).
Defined.
End HistoryClaims.

(** ** Observations on [sensor_data] inserts and [SaveMeasurement] *)
Module PersisterFacts.
Import Strconv Schema Persister.

Lemma pk_taken_fresh (t : sensor_data) (time : Z) :
  ids_below_seq t -> pk_taken t time (id_seq t) = false.
Proof.
  unfold ids_below_seq, pk_taken. induction 1 as [|r rs Hr _ IH]; [reflexivity|].
  simpl. rewrite IH. rewrite (proj2 (Z.eqb_neq (row_id r) (id_seq t))) by lia.
  now rewrite andb_false_r.
Qed.

Lemma ids_below_seq_insert (t : sensor_data) (time sid : Z) (v : float64) :
  ids_below_seq t ->
  ids_below_seq (MkSensorData (rows t ++ [MkDataRow (id_seq t) time sid v]) (id_seq t + 1)).
Proof.
  unfold ids_below_seq. simpl. intros H. apply Forall_app. split.
  - eapply Forall_impl; [exact H|]. simpl. intros r Hr. lia.
  - constructor; [simpl; lia|constructor].
Qed.

Lemma insert_ok_rows (f : Z -> bool) (t t' : sensor_data) (time sid : Z) (v : float64) :
  insert f t time sid v = inr t' ->
  rows t' = rows t ++ [MkDataRow (id_seq t) time sid v].
Proof.
  unfold insert. destruct (int4_max <? id_seq t); [discriminate|].
  destruct (pk_taken t time (id_seq t)); [discriminate|].
  destruct (negb (f sid)); [discriminate|]. intros H; injection H as <-. reflexivity.
Qed.

Lemma insert_error_rows (f : Z -> bool) (t t1 : sensor_data) (err : insert_error)
      (time sid : Z) (v : float64) :
  insert f t time sid v = inl (err, t1) -> rows t1 = rows t.
Proof.
  unfold insert. destruct (int4_max <? id_seq t); [intros H; now injection H as _ <-|].
  destruct (pk_taken t time (id_seq t)); [intros H; now injection H as _ <-|].
  destruct (negb (f sid)); [intros H; now injection H as _ <-|discriminate].
Qed.

Lemma pg_exec_inl_rows (e : env) (t t1 : sensor_data) (ev : SensorEvent) :
  pg_exec e t ev = inl t1 -> rows t1 = rows t.
Proof.
  unfold pg_exec. destruct (pg_up e); simpl; [|intros H; now injection H as <-].
  destruct (int4 (SensorID ev)); simpl; [|intros H; now injection H as <-].
  destruct (insert _ _ _ _ _) as [[err t2]|t2] eqn:Hi; [|discriminate].
  intros H; injection H as <-. exact (insert_error_rows _ _ _ _ _ _ _ Hi).
Qed.

Lemma pg_exec_inr_rows (e : env) (t t' : sensor_data) (ev : SensorEvent) :
  pg_exec e t ev = inr t' ->
  rows t' = rows t ++ [MkDataRow (id_seq t) (Timestamp ev) (SensorID ev) (Value ev)].
Proof.
  unfold pg_exec. destruct (pg_up e); simpl; [|discriminate].
  destruct (int4 (SensorID ev)); simpl; [|discriminate].
  destruct (insert _ _ _ _ _) as [[err t2]|t2] eqn:Hi; [discriminate|].
  intros H; injection H as <-. exact (insert_ok_rows _ _ _ _ _ _ Hi).
Qed.

Lemma last_key_5 : last_key 5 = "sensor:last:5"%string.
Proof. reflexivity. Qed.
End PersisterFacts.

(** ** Claims on the persister and the [sensor_data] table *)
Module PersisterClaims.
Import Strconv Schema Persister PersisterFacts.

(** C5: [SaveMeasurement] first runs the INSERT into [sensor_data].
    If it fails, the whole call fails, no row is added and the key-value
    store is not written. If it succeeds, the row
    (timestamp, sensor_id, value) is appended, and only then the key
    [sensor:last:<sensor_id>] is overwritten with the event's value and a
    24-hour lease; if that write fails the error is returned and the new
    row stays in place. *)
Theorem SaveMeasurement_order (e : env) (s : stores) (ev : SensorEvent) :
  match pg_exec e (pg s) ev with
  | inl t1 =>
      rows t1 = rows (pg s) /\
      SaveMeasurement e s ev = (Some PgInsertFailed, MkStores t1 (kv s))
  | inr t' =>
      rows t' = rows (pg s) ++ [MkDataRow (id_seq (pg s)) (Timestamp ev) (SensorID ev) (Value ev)] /\
      SaveMeasurement e s ev =
        if valkey_up e
        then (None, MkStores t' (<[last_key (SensorID ev) :=
                                    MkKvEntry (KvFloat (Value ev)) (24 * hour)]> (kv s)))
        else (Some ValkeyUpdateFailed, MkStores t' (kv s))
  end.
Proof.
  destruct (pg_exec e (pg s) ev) as [t1|t'] eqn:Hp.
  - split; [exact (pg_exec_inl_rows _ _ _ _ Hp)|]. unfold SaveMeasurement. now rewrite Hp.
  - split; [exact (pg_exec_inr_rows _ _ _ _ Hp)|]. unfold SaveMeasurement. rewrite Hp.
    unfold redis_set. now destruct (valkey_up e).
Qed.

(** The sensor with id 5 exists, no other. *)
Definition only_sensor_5 (id : Z) : bool := id =? 5.

(** C8 (counterexample): inserting the same (time, sensor_id, value)
    twice into an empty table is accepted both times: the rows get ids 1
    and 2, so their primary keys (time, id) differ. *)
Lemma sensor_data_exact_duplicate_accepted :
  insert only_sensor_5 empty_sensor_data 1000 5 (of_Z 21) =
    inr (MkSensorData [MkDataRow 1 1000 5 (of_Z 21)] 2) /\
  insert only_sensor_5 (MkSensorData [MkDataRow 1 1000 5 (of_Z 21)] 2) 1000 5 (of_Z 21) =
    inr (MkSensorData [MkDataRow 1 1000 5 (of_Z 21); MkDataRow 2 1000 5 (of_Z 21)] 3).
Proof. split; reflexivity. Qed.

(** C8 (amended): the primary key of [sensor_data] is (time, id), with
    [id] drawn from a SERIAL (int4) sequence. On a table whose ids all
    come from that sequence, while the sequence has not run out (its next
    value is at most 2147483647), an insert of any (time, sensor_id,
    value) whose sensor exists is accepted, with the fresh id, and keeps
    that invariant; so rows with the same timestamp are accepted whether
    their sensor ids differ or are equal, exact duplicates included. *)
Theorem sensor_data_insert_fresh_id (f : Z -> bool) (t : sensor_data)
        (time sensor_id : Z) (value : float64) :
  ids_below_seq t ->
  id_seq t <= int4_max ->
  f sensor_id = true ->
  insert f t time sensor_id value =
    inr (MkSensorData (rows t ++ [MkDataRow (id_seq t) time sensor_id value]) (id_seq t + 1)) /\
  ids_below_seq (MkSensorData (rows t ++ [MkDataRow (id_seq t) time sensor_id value])
                              (id_seq t + 1)).
Proof.
  intros Hinv Hseq Hf. split; [|exact (ids_below_seq_insert _ _ _ _ Hinv)].
  unfold insert. rewrite (proj2 (Z.ltb_ge int4_max (id_seq t)) Hseq).
  rewrite (pk_taken_fresh _ _ Hinv), Hf. reflexivity.
Qed.

Lemma sensor_data_insert_fresh_id_witness :
  ids_below_seq (MkSensorData [MkDataRow 1 1000 5 (of_Z 21)] 2) /\
  insert only_sensor_5 (MkSensorData [MkDataRow 1 1000 5 (of_Z 21)] 2) 1000 5 (of_Z 21) =
    inr (MkSensorData [MkDataRow 1 1000 5 (of_Z 21); MkDataRow 2 1000 5 (of_Z 21)] 3).
Proof.
  assert (H1 : ids_below_seq (MkSensorData [MkDataRow 1 1000 5 (of_Z 21)] 2))
    by (repeat constructor; simpl; lia).
  assert (H2 : only_sensor_5 5 = true) by reflexivity.
  assert (H3 : id_seq (MkSensorData [MkDataRow 1 1000 5 (of_Z 21)] 2) <= int4_max)
    by (unfold int4_max; simpl; lia).
  split; [exact H1|].
  exact (proj1 (sensor_data_insert_fresh_id only_sensor_5 _ 1000 5 (of_Z 21) H1 H3 H2)).
Defined.
End PersisterClaims.

(** ** Claims on the metadata refresh *)
Module RefreshClaims.
Import Ingestor MetadataRefresh.

Lemma published_nil (m : gmap string SensorMetadata) (k : nat) : published m [] k = m.
Proof. unfold published. now rewrite firstn_nil. Qed.

(** C6: when [LoadSensors] returns an error it has not touched the
    shared cache: the service is unchanged and a concurrent reader sees
    the previous mapping at every point. When it succeeds, its only
    write is one assignment of the new map under the write lock, so a
    concurrent reader sees either the whole previous mapping or the
    whole new one. *)
Theorem LoadSensors_atomic (q : query_result) (s : MetadataService) :
  match LoadSensors q s with
  | (Some _, s', ops) =>
      s' = s /\ ops = [] /\ (forall k, published (cache s) ops k = cache s)
  | (None, s', ops) =>
      ops = [Lock; SetCache (cache s'); Unlock] /\
      (forall k, published (cache s) ops k = cache s \/ published (cache s) ops k = cache s')
  end.
Proof.
  destruct q as [|rs]; simpl.
  - split; [reflexivity|]. split; [reflexivity|]. intros k. apply published_nil.
  - split; [reflexivity|]. unfold published. intros [|[|[|[|k]]]]; simpl; auto.
Qed.
End RefreshClaims.

(** ** Claims on the sensor list *)
Module SensorsClaims.
Import Strconv SensorsApi.

Lemma collect_rows_in (get : string -> redis_reply) (rs : list scan_result)
      (ds : list SensorDTO) (dto : SensorDTO) :
  collect_rows get rs = Some ds -> In dto ds -> exists r, dto = make_dto get r.
Proof.
  revert ds. induction rs as [|[r|] rs IH]; simpl; intros ds H Hin.
  - injection H as <-. destruct Hin.
  - destruct (collect_rows get rs) as [ds'|] eqn:E; [|discriminate].
    injection H as <-. destruct Hin as [<-|Hin]; [now exists r|exact (IH ds' eq_refl Hin)].
  - discriminate.
Qed.

Lemma make_dto_id (get : string -> redis_reply) (r : sensor_row) :
  DtoID (make_dto get r) = r_id r.
Proof. unfold make_dto. now destruct (get _). Qed.

(** C7: in the result of [GetAllSensors], a sensor whose key
    [sensor:last:<id>] is missing ([redis.Nil]) has [current_value]
    unset, serialized as [null]; a sensor whose key holds "0" has
    [current_value] the number 0, so the two are told apart. *)
Theorem GetAllSensors_miss_is_null (q : option (list scan_result))
        (get : string -> redis_reply) (dtos : list SensorDTO) (dto : SensorDTO) :
  GetAllSensors q get = Some dtos ->
  In dto dtos ->
  get (Persister.last_key (DtoID dto)) = RNil ->
  CurrentValue dto = None /\ current_value_json dto = Some JNull /\
  (forall r : sensor_row,
     CurrentValue (make_dto (fun _ => RVal "0") r) = Some (S754_zero false) /\
     current_value_json (make_dto (fun _ => RVal "0") r) = Some (JNumber (S754_zero false))).
Proof.
  intros Hq Hin Hnil.
  destruct q as [rs|]; [|discriminate].
  destruct (collect_rows_in _ _ _ _ Hq Hin) as [r ->].
  rewrite make_dto_id in Hnil.
  assert (Hc : CurrentValue (make_dto get r) = None).
  { unfold make_dto. now rewrite Hnil. }
  split; [exact Hc|]. split.
  - unfold current_value_json, marshal_dto. rewrite Hc. reflexivity.
  - intros r'. split; vm_compute; reflexivity.
Qed.

Definition row_5 : sensor_row := MkSensorRow 5 "sensors/t" "Living room" "temperature" "C".

Lemma GetAllSensors_miss_is_null_witness :
  GetAllSensors (Some [ScanOk row_5]) (fun _ => RNil)
    = Some [MkSensorDTO 5 "sensors/t" "Living room" "temperature" "C" None] /\
  current_value_json (MkSensorDTO 5 "sensors/t" "Living room" "temperature" "C" None)
    = Some JNull.
Proof.
  assert (H1 : GetAllSensors (Some [ScanOk row_5]) (fun _ => RNil)
               = Some [MkSensorDTO 5 "sensors/t" "Living room" "temperature" "C" None])
    by reflexivity.
  assert (H2 : In (MkSensorDTO 5 "sensors/t" "Living room" "temperature" "C" None)
                  [MkSensorDTO 5 "sensors/t" "Living room" "temperature" "C" None])
    by (left; reflexivity).
  assert (H3 : (fun _ : string => RNil) (Persister.last_key 5) = RNil) by reflexivity.
  split; [exact H1|].
  exact (proj1 (proj2 (GetAllSensors_miss_is_null _ _ _ _ H1 H2 H3))).
Defined.
End SensorsClaims.

(** ** Claims on the Log Collector *)
Module LogCollectorClaims.
Import LogCollector.

Definition environ_tmp : gmap string string := {[ "LOG_DIR" := "/tmp/logs" ]}.

(** C9 (failing input): with LOG_DIR=/tmp/logs, [LoadConfig] would give
    the directory /tmp/logs and the specification names
    /tmp/logs/svc.log, but a message on "logs/svc/info" is appended to
    /var/log/iot-app/svc.log: [main] uses the constant [LogDir] and
    never calls [LoadConfig]. *)
Lemma LogCollector_LOG_DIR_ignored :
  Config.LogDir (Config.LoadConfig environ_tmp) = "/tmp/logs"%string /\
  spec_log_path environ_tmp "svc" = "/tmp/logs/svc.log"%string /\
  run environ_tmp ∅ [("logs/svc/info", "hi")]%string
    = {[ "/var/log/iot-app/svc.log" := ("hi" ++ newline)%string ]} /\
  run environ_tmp ∅ [("logs/svc/info", "hi")]%string !! "/tmp/logs/svc.log"%string = None.
Proof. split; [|split; [|split]]; vm_compute; reflexivity. Qed.
End LogCollectorClaims.

(** ** Decimal digit strings: [GoTime.dec] and the parsers that read it back *)
Module DecimalFacts.
Import Chars ParseFacts.

Fixpoint all_digits (s : string) : bool :=
  match s with
  | EmptyString => true
  | String c s' => is_digit c && all_digits s'
  end.

(** The value of a digit string read after the digits [a]. *)
Fixpoint dv (s : string) (a : Z) : Z :=
  match s with
  | EmptyString => a
  | String c s' => dv s' (a * 10 + digit_val c)
  end.

Lemma digit_char_ok (d : Z) :
  0 <= d <= 9 -> is_digit (GoTime.digit_char d) = true /\ digit_val (GoTime.digit_char d) = d.
Proof.
  intros Hd.
  assert (d = 0 \/ d = 1 \/ d = 2 \/ d = 3 \/ d = 4 \/ d = 5 \/ d = 6 \/ d = 7 \/ d = 8 \/ d = 9)
    as Hc by lia.
  repeat destruct Hc as [->|Hc]; try (split; reflexivity); subst; split; reflexivity.
Qed.

Lemma digit_val_range (c : ascii) : is_digit c = true -> 0 <= digit_val c <= 9.
Proof.
  unfold is_digit, digit_val. intros H. apply andb_true_iff in H as [H1 H2].
  apply N.leb_le in H1, H2. lia.
Qed.

Lemma digit_not_sign (c : ascii) :
  is_digit c = true -> Ascii.eqb c "+" = false /\ Ascii.eqb c "-" = false /\ Ascii.eqb c "." = false.
Proof.
  intros H. repeat split; apply Ascii.eqb_neq; intros ->; discriminate H.
Qed.

Lemma dv_app (s t : string) (a : Z) : dv (s ++ t) a = dv t (dv s a).
Proof. revert a. induction s as [|c s IH]; intros a; [reflexivity|]. rewrite str_app_cons. apply IH. Qed.

Lemma all_digits_app (s t : string) : all_digits (s ++ t) = all_digits s && all_digits t.
Proof.
  induction s as [|c s IH]; [reflexivity|]. rewrite str_app_cons. simpl. rewrite IH. apply andb_assoc.
Qed.

Lemma dv_ge (s : string) (a : Z) : all_digits s = true -> 0 <= a -> a <= dv s a.
Proof.
  revert a. induction s as [|c s IH]; intros a Hs Ha; simpl; [lia|].
  simpl in Hs. apply andb_true_iff in Hs as [Hc Hs].
  pose proof (digit_val_range c Hc). specialize (IH (a * 10 + digit_val c) Hs ltac:(lia)). lia.
Qed.

Lemma dec_aux_repr (fuel : nat) : forall (n : Z) (acc : string),
  0 <= n < 10 ^ Z.of_nat (S fuel) ->
  exists ds, GoTime.dec_aux fuel n acc = (ds ++ acc)%string /\ all_digits ds = true /\
             ds <> EmptyString /\ dv ds 0 = n.
Proof.
  induction fuel as [|fuel IH]; intros n acc Hn.
  - simpl in Hn. assert (Hm : n mod 10 = n) by (apply Z.mod_small; lia).
    destruct (digit_char_ok n ltac:(lia)) as [H1 H2].
    exists (String (GoTime.digit_char n) EmptyString). simpl. rewrite Hm, H1, H2.
    repeat split; try discriminate; try lia.
  - pose proof (Z.div_mod n 10 ltac:(lia)) as Hdm. pose proof (Z.mod_pos_bound n 10 ltac:(lia)).
    destruct (digit_char_ok (n mod 10) ltac:(lia)) as [H1 H2].
    cbn [GoTime.dec_aux]. destruct (n / 10 =? 0) eqn:E.
    + apply Z.eqb_eq in E. exists (String (GoTime.digit_char (n mod 10)) EmptyString).
      simpl. rewrite H1, H2. repeat split; try discriminate; try lia.
    + assert (Hlt : 0 <= n / 10 < 10 ^ Z.of_nat (S fuel)).
      { split; [apply Z.div_pos; lia|]. apply Z.div_lt_upper_bound; [lia|].
        rewrite Nat2Z.inj_succ, Z.pow_succ_r in Hn by lia. lia. }
      destruct (IH (n / 10) (String (GoTime.digit_char (n mod 10)) acc) Hlt)
        as [ds [Hd [Ha [Hne Hv]]]].
      exists (ds ++ String (GoTime.digit_char (n mod 10)) EmptyString)%string.
      rewrite Hd, <- str_app_assoc, str_app_cons, str_app_empty.
      rewrite all_digits_app, dv_app, Ha, Hv. simpl. rewrite H1, H2.
      repeat split; try lia. destruct ds; [congruence|]. rewrite str_app_cons. discriminate.
Qed.

Lemma dec_repr (n : Z) :
  0 <= n < 10 ^ 41 ->
  exists ds, GoTime.dec n = ds /\ all_digits ds = true /\ ds <> EmptyString /\ dv ds 0 = n.
Proof.
  intros Hn. destruct (dec_aux_repr 40 n EmptyString Hn) as [ds [Hd H]].
  exists ds. split; [|exact H]. unfold GoTime.dec. rewrite Hd. apply str_app_nil.
Qed.

Lemma digits_value_dv (s : string) (a : Z) :
  all_digits s = true -> HomeApi.digits_value s a = Some (dv s a).
Proof.
  revert a. induction s as [|c s IH]; intros a Hs; [reflexivity|].
  simpl in Hs. apply andb_true_iff in Hs as [Hc Hs]. simpl. rewrite Hc. apply IH, Hs.
Qed.

(** [leadingInt] reads a digit string in full when its value fits. *)
Lemma leading_int_digits (ds rest : string) (a : Z) :
  all_digits ds = true -> 0 <= a ->
  match rest with String c _ => is_digit c = false | EmptyString => True end ->
  dv ds a <= Duration.two63 ->
  Duration.leading_int (ds ++ rest) a = Some (dv ds a, rest).
Proof.
  revert a. induction ds as [|c ds IH]; intros a Hd Ha Hr Hb.
  - destruct rest as [|c r]; [reflexivity|]. simpl. now rewrite Hr.
  - simpl in Hd. apply andb_true_iff in Hd as [Hc Hd]. rewrite str_app_cons. simpl.
    pose proof (digit_val_range c Hc) as Hcv. simpl in Hb.
    pose proof (dv_ge ds (a * 10 + digit_val c) Hd ltac:(lia)) as Hge.
    rewrite Hc. simpl.
    assert (Ha10 : a <= Duration.two63 / 10) by (apply Z.div_le_lower_bound; lia).
    destruct (a >? Duration.two63 / 10) eqn:E1; [apply Z.gtb_lt in E1; lia|].
    destruct (a * 10 + digit_val c >? Duration.two63) eqn:E2; [apply Z.gtb_lt in E2; lia|].
    apply IH; auto. lia.
Qed.
End DecimalFacts.

(** ** Properties of the Read API and the persister's keys *)
Module ApiExtras.
Import Chars ParseFacts DecimalFacts HomeApi.

Lemma int64_lt_10_41 : 2 ^ 63 < 10 ^ 41.
Proof. reflexivity. Qed.

Lemma ParseInt_digits (ds : string) :
  all_digits ds = true -> ds <> EmptyString ->
  ParseInt ds = if (dv ds 0 <? - 2 ^ 63) || (2 ^ 63 - 1 <? dv ds 0) then None else Some (dv ds 0).
Proof.
  intros Ha Hne. destruct ds as [|c t]; [congruence|].
  pose proof Ha as Ha'. simpl in Ha'. apply andb_true_iff in Ha' as [Hc _].
  destruct (digit_not_sign c Hc) as [Hp [Hm _]].
  unfold ParseInt. rewrite Hp, Hm. rewrite (digits_value_dv _ _ Ha). reflexivity.
Qed.

Lemma ParseInt_neg_digits (ds : string) :
  all_digits ds = true -> ds <> EmptyString ->
  ParseInt ("-" ++ ds) = if (- dv ds 0 <? - 2 ^ 63) || (2 ^ 63 - 1 <? - dv ds 0)
                         then None else Some (- dv ds 0).
Proof.
  intros Ha Hne. rewrite str_app_cons, str_app_empty.
  destruct ds as [|c t]; [congruence|].
  unfold ParseInt. simpl (Ascii.eqb "-" "+"). simpl (Ascii.eqb "-" "-"). cbv iota beta.
  rewrite (digits_value_dv _ _ Ha). reflexivity.
Qed.

Lemma parse_int_itoa (z : Z) :
  - 2 ^ 63 <= z <= 2 ^ 63 - 1 -> ParseInt (Persister.itoa z) = Some z.
Proof.
  intros Hz. pose proof int64_lt_10_41. unfold Persister.itoa. destruct (z <? 0) eqn:Hs.
  - apply Z.ltb_lt in Hs. destruct (dec_repr (- z) ltac:(lia)) as [ds [-> [Ha [Hne Hv]]]].
    rewrite (ParseInt_neg_digits _ Ha Hne), Hv.
    destruct (- - z <? - 2 ^ 63) eqn:E1; [apply Z.ltb_lt in E1; lia|].
    destruct (2 ^ 63 - 1 <? - - z) eqn:E2; [apply Z.ltb_lt in E2; lia|].
    f_equal. lia.
  - apply Z.ltb_ge in Hs. destruct (dec_repr z ltac:(lia)) as [ds [-> [Ha [Hne Hv]]]].
    rewrite (ParseInt_digits _ Ha Hne), Hv.
    destruct (z <? - 2 ^ 63) eqn:E1; [apply Z.ltb_lt in E1; lia|].
    destruct (2 ^ 63 - 1 <? z) eqn:E2; [apply Z.ltb_lt in E2; lia|].
    reflexivity.
Qed.

Lemma str_app_cancel_l (p x y : string) : (p ++ x = p ++ y)%string -> x = y.
Proof. induction p as [|c p IH]; [easy|]. rewrite !str_app_cons. intros H. injection H. exact IH. Qed.

Lemma last_key_inj (a b : Z) :
  - 2 ^ 63 <= a <= 2 ^ 63 - 1 -> - 2 ^ 63 <= b <= 2 ^ 63 - 1 ->
  Persister.last_key a = Persister.last_key b -> a = b.
Proof.
  intros Ha Hb H. unfold Persister.last_key in H. apply str_app_cancel_l in H.
  pose proof (parse_int_itoa a Ha) as Pa. rewrite H, (parse_int_itoa b Hb) in Pa.
  now injection Pa.
Qed.

(** [strconv.ParseInt] reads back every int64 that [fmt.Sprintf("%d")]
    writes: the sensor id of a URL built with [%d] is parsed to the same
    id. *)
Theorem ParseInt_itoa (z : Z) :
  - 2 ^ 63 <= z <= 2 ^ 63 - 1 -> ParseInt (Persister.itoa z) = Some z.
Proof. exact (parse_int_itoa z). Qed.

Lemma ParseInt_itoa_witness :
  ParseInt "-9223372036854775808" = Some (- 2 ^ 63) /\ ParseInt "42" = Some 42.
Proof.
  split; [exact (ParseInt_itoa (- 2 ^ 63) ltac:(lia)) | exact (ParseInt_itoa 42 ltac:(lia))].
Defined.

(** Distinct int64 sensor ids have distinct Valkey keys
    [sensor:last:<id>]. *)
Theorem last_key_injective (a b : Z) :
  - 2 ^ 63 <= a <= 2 ^ 63 - 1 -> - 2 ^ 63 <= b <= 2 ^ 63 - 1 ->
  Persister.last_key a = Persister.last_key b -> a = b.
Proof. exact (last_key_inj a b). Qed.

Lemma last_key_injective_witness : 5 = 5.
Proof. exact (last_key_injective 5 5 ltac:(lia) ltac:(lia) eq_refl). Defined.
End ApiExtras.

(** ** Properties of [SaveMeasurement] on the key-value store *)
Module PersisterExtras.
Import Strconv Schema Persister ApiExtras.

(** A successful [SaveMeasurement] leaves the event's value with a
    24-hour lease under its sensor's key and changes no other sensor's
    key. *)
Theorem SaveMeasurement_sets_own_key (e : env) (s s' : stores) (ev : SensorEvent) (b : Z) :
  SaveMeasurement e s ev = (None, s') ->
  - 2 ^ 63 <= SensorID ev <= 2 ^ 63 - 1 -> - 2 ^ 63 <= b <= 2 ^ 63 - 1 -> b <> SensorID ev ->
  kv s' !! last_key (SensorID ev) = Some (MkKvEntry (KvFloat (Value ev)) (24 * hour)) /\
  kv s' !! last_key b = kv s !! last_key b.
Proof.
  intros H Ha Hb Hne. unfold SaveMeasurement in H.
  destruct (pg_exec e (pg s) ev) as [t1|t']; [discriminate|].
  unfold redis_set in H. destruct (valkey_up e); [|discriminate].
  injection H as <-. simpl. split; [apply lookup_insert_eq|].
  apply lookup_insert_ne. intros Hk. apply Hne. symmetry.
  exact (last_key_inj _ _ Ha Hb Hk).
Qed.

Definition env_up : env := MkEnv true true (fun id => id =? 5).
Definition event_5 : SensorEvent := MkSensorEvent 5 (of_Z 21) 1000.
Definition stores_7 : stores :=
  MkStores empty_sensor_data {[ last_key 7 := MkKvEntry (KvFloat (of_Z 3)) (24 * hour) ]}.

Lemma SaveMeasurement_sets_own_key_witness :
  kv (snd (SaveMeasurement env_up stores_7 event_5)) !! last_key 7
    = Some (MkKvEntry (KvFloat (of_Z 3)) (24 * hour)).
Proof.
  assert (H : SaveMeasurement env_up stores_7 event_5
              = (None, snd (SaveMeasurement env_up stores_7 event_5))) by reflexivity.
  rewrite (proj2 (SaveMeasurement_sets_own_key env_up stores_7 _ event_5 7 H
                    ltac:(simpl; lia) ltac:(lia) ltac:(simpl; lia))).
  reflexivity.
Defined.
End PersisterExtras.

(** ** Round trips of [time.ParseDuration] *)
Module DurationExtras.
Import Chars ParseFacts DecimalFacts Duration.

Lemma unit_map_cases (u : string) (unit : Z) :
  unit_map u = Some unit ->
  (u = "ns" /\ unit = 1) \/ (u = "us" /\ unit = 1000) \/
  (u = String (chr 194) (String (chr 181) "s") /\ unit = 1000) \/
  (u = String (chr 206) (String (chr 188) "s") /\ unit = 1000) \/
  (u = "ms" /\ unit = 1000000) \/ (u = "s" /\ unit = 1000000000) \/
  (u = "m" /\ unit = 60000000000) \/ (u = "h" /\ unit = 3600000000000).
Proof.
  unfold unit_map.
  repeat match goal with
         | |- context [String.eqb ?a ?b] => destruct (String.eqb_spec a b) as [->|_]
         end; intros H; try discriminate H; injection H as <-; tauto.
Qed.

Ltac component_unit Ha Hb :=
  match goal with
  | |- component (?ds ++ ?u) = _ =>
      unfold component;
      rewrite (leading_int_digits ds u 0 Ha ltac:(lia) ltac:(reflexivity) Hb)
  end;
  let Hpre := fresh in
  match goal with
  | |- context [(String.length ?u =? String.length (?ds ++ ?u))%nat] =>
      assert (Hpre : (String.length u =? String.length (ds ++ u))%nat = false)
        by (rewrite str_length_app; apply Nat.eqb_neq; destruct ds; [congruence|]; simpl; lia)
  end;
  rewrite Hpre; simpl;
  match goal with
  | |- context [dv ?ds 0 >? two63 / ?k] =>
      let Hle := fresh "Hle" in
      assert (Hle : dv ds 0 <= two63 / k) by (apply Z.div_le_lower_bound; unfold two63 in *; lia);
      let E := fresh "E" in
      destruct (dv ds 0 >? two63 / k) eqn:E; [apply Z.gtb_lt in E; lia|]
  end;
  reflexivity.

(** One component [<digits><unit>] is read in full. *)
Lemma component_digits_unit (ds u : string) (unit : Z) :
  all_digits ds = true -> ds <> EmptyString -> unit_map u = Some unit ->
  dv ds 0 * unit < two63 ->
  component (ds ++ u) = inr (dv ds 0 * unit, EmptyString).
Proof.
  intros Ha Hne Hu Hb.
  assert (Hb' : dv ds 0 <= two63).
  { destruct (unit_map_cases u unit Hu) as [[_ ->]|[[_ ->]|[[_ ->]|[[_ ->]|[[_ ->]|[[_ ->]|[[_ ->]|[_ ->]]]]]]]];
    pose proof (dv_ge ds 0 Ha ltac:(lia)); lia. }
  destruct (unit_map_cases u unit Hu) as [[-> ->]|[[-> ->]|[[-> ->]|[[-> ->]|[[-> ->]|[[-> ->]|[[-> ->]|[-> ->]]]]]]]];
  component_unit Ha Hb'.
Qed.

Lemma unit_pos (u : string) (unit : Z) : unit_map u = Some unit -> 1 <= unit.
Proof.
  intros Hu.
  destruct (unit_map_cases u unit Hu) as [[_ ->]|[[_ ->]|[[_ ->]|[[_ ->]|[[_ ->]|[[_ ->]|[[_ ->]|[_ ->]]]]]]]];
  lia.
Qed.

Lemma components_digits_unit (ds u : string) (unit : Z) :
  all_digits ds = true -> ds <> EmptyString -> unit_map u = Some unit ->
  0 <= dv ds 0 * unit < two63 ->
  components (String.length (ds ++ u)) (ds ++ u) 0 = inr (dv ds 0 * unit).
Proof.
  intros Ha Hne Hu Hb. pose proof (component_digits_unit ds u unit Ha Hne Hu ltac:(lia)) as Hc.
  destruct ds as [|c t]; [congruence|].
  pose proof Ha as Ha'. simpl in Ha'. apply andb_true_iff in Ha' as [Hcd _].
  destruct (digit_not_sign c Hcd) as [_ [_ Hdot]].
  rewrite str_app_cons in *. cbn [components String.length].
  rewrite Hdot, Hcd. simpl negb. cbv iota. rewrite Hc.
  rewrite Z.add_0_l, Z.mod_small by (unfold two64, two63 in *; lia).
  destruct (dv (String c t) 0 * unit >? two63) eqn:E; [apply Z.gtb_lt in E; lia|].
  now destruct (String.length (t ++ u)).
Qed.

Lemma parse_duration_dec_unit (n unit : Z) (u : string) :
  unit_map u = Some unit -> 0 <= n -> n * unit < two63 ->
  ParseDuration (GoTime.dec n ++ u) = inr (n * unit) /\
  ParseDuration ("-" ++ GoTime.dec n ++ u) = inr (- (n * unit)).
Proof.
  intros Hu Hn Hb. pose proof (unit_pos u unit Hu) as H1.
  destruct (dec_repr n ltac:(unfold two63 in *; nia)) as [ds [-> [Ha [Hne Hv]]]].
  pose proof (components_digits_unit ds u unit Ha Hne Hu ltac:(nia)) as Hcs. rewrite Hv in Hcs.
  assert (Hs0 : String.eqb (ds ++ u) "0" = false).
  { apply String.eqb_neq. intros E. apply (f_equal String.length) in E.
    rewrite str_length_app in E. destruct u as [|x u'].
    - destruct (unit_map_cases _ unit Hu) as [[E' _]|[[E' _]|[[E' _]|[[E' _]|[[E' _]|[[E' _]|[[E' _]|[E' _]]]]]]]];
      discriminate E'.
    - destruct ds; [congruence|]. simpl in E. lia. }
  assert (Hse : String.eqb (ds ++ u) "" = false).
  { destruct ds; [congruence|]. reflexivity. }
  destruct ds as [|c t]; [congruence|].
  pose proof Ha as Ha'. simpl in Ha'. apply andb_true_iff in Ha' as [Hcd _].
  destruct (digit_not_sign c Hcd) as [Hp [Hm _]].
  rewrite str_app_cons in Hs0, Hse, Hcs |- *.
  split.
  - unfold ParseDuration. rewrite Hm, Hp. cbv iota.
    rewrite Hs0, Hse, Hcs.
    destruct (n * unit >? two63 - 1) eqn:E; [apply Z.gtb_lt in E; lia|]. reflexivity.
  - unfold ParseDuration. rewrite str_app_cons, str_app_empty. simpl (Ascii.eqb "-" "-"). cbv iota.
    rewrite Hs0, Hse, Hcs. reflexivity.
Qed.

(** [time.ParseDuration] reads back a decimal count of one unit ("ns",
    "us", "µs", "μs", "ms", "s", "m", "h"), with or without a leading
    "-", when the number of nanoseconds stays below 2^63. *)
Theorem ParseDuration_dec_unit (n unit : Z) (u : string) :
  unit_map u = Some unit -> 0 <= n -> n * unit < two63 ->
  ParseDuration (GoTime.dec n ++ u) = inr (n * unit) /\
  ParseDuration ("-" ++ GoTime.dec n ++ u) = inr (- (n * unit)).
Proof. exact (parse_duration_dec_unit n unit u). Qed.

Lemma ParseDuration_dec_unit_witness :
  ParseDuration "168h" = inr 604800000000000 /\ ParseDuration "-90m" = inr (-5400000000000).
Proof.
  split.
  - exact (proj1 (ParseDuration_dec_unit 168 3600000000000 "h" eq_refl ltac:(lia)
                    ltac:(unfold two63; lia))).
  - exact (proj2 (ParseDuration_dec_unit 90 60000000000 "m" eq_refl ltac:(lia)
                    ltac:(unfold two63; lia))).
Defined.

(** A number without a unit is refused with [MissingUnit], except "0". *)
Theorem ParseDuration_missing_unit (n : Z) :
  0 < n <= two63 -> ParseDuration (GoTime.dec n) = inl MissingUnit.
Proof.
  intros Hn. destruct (dec_repr n ltac:(unfold two63 in *; lia)) as [ds [-> [Ha [Hne Hv]]]].
  assert (Hl : leading_int ds 0 = Some (n, EmptyString)).
  { rewrite <- Hv, <- (str_app_nil ds) at 1. apply leading_int_digits; auto; lia. }
  assert (Hs0 : String.eqb ds "0" = false).
  { apply String.eqb_neq. intros ->. vm_compute in Hv. lia. }
  destruct ds as [|c t]; [congruence|].
  pose proof Ha as Ha'. simpl in Ha'. apply andb_true_iff in Ha' as [Hcd _].
  destruct (digit_not_sign c Hcd) as [Hp [Hm Hdot]].
  unfold ParseDuration. rewrite Hm, Hp. cbv iota. rewrite Hs0.
  cbn [String.eqb components String.length]. rewrite Hdot, Hcd. simpl negb. cbv iota.
  unfold component. rewrite Hl. cbn [String.length].
  replace (0 =? S (String.length t))%nat with false by reflexivity.
  reflexivity.
Qed.

Lemma ParseDuration_missing_unit_witness : ParseDuration "90" = inl MissingUnit.
Proof. exact (ParseDuration_missing_unit 90 ltac:(unfold two63; lia)). Defined.
End DurationExtras.

(** ** The history endpoint's window *)
Module HistoryExtras.
Import ParseFacts HomeApi.

(** Without a [range] parameter the window is 24 hours: the store is
    asked for the points from exactly 24 hours before [now]; the status
    is 400 for a bad id, else 200 or 500 as the store answers. *)
Theorem handleGetHistory_default_window (db : history_db) (now : Z) (idStr : string) :
  handleGetHistory db now idStr "" =
    match ParseInt idStr with
    | None => StatusBadRequest
    | Some id =>
        match db id (now - 86400000000000) with
        | Some _ => StatusOK
        | None => StatusInternalServerError
        end
    end.
Proof.
  unfold handleGetHistory. destruct (ParseInt idStr) as [id|]; [|reflexivity].
  cbn [String.eqb]. cbv iota. unfold GetHistory.
  replace (Duration.ParseDuration "24h") with (inr 86400000000000 : Duration.dur_error + Z)
    by (vm_compute; reflexivity).
  cbv iota beta. now destruct (db id (now - 86400000000000)).
Qed.

(** A negative window is not refused: with [range=-<n>h] the store is
    asked for the points from [n] hours after [now]. *)
Theorem handleGetHistory_negative_range (db : history_db) (now id n : Z) (idStr : string) :
  ParseInt idStr = Some id -> 0 <= n -> n * 3600000000000 < Duration.two63 ->
  handleGetHistory db now idStr ("-" ++ GoTime.dec n ++ "h") =
    match db id (now + n * 3600000000000) with
    | Some _ => StatusOK
    | None => StatusInternalServerError
    end.
Proof.
  intros Hid Hn Hb. unfold handleGetHistory. rewrite Hid.
  replace (String.eqb ("-" ++ GoTime.dec n ++ "h") "") with false
    by (rewrite str_app_cons; reflexivity).
  unfold GetHistory.
  rewrite (proj2 (DurationExtras.parse_duration_dec_unit n 3600000000000 "h" eq_refl Hn Hb)).
  replace (now - - (n * 3600000000000)) with (now + n * 3600000000000) by lia.
  now destruct (db id (now + n * 3600000000000)).
Qed.

Definition rows_after (t0 : Z) : history_db :=
  fun _ start => if start <=? t0 then Some [] else None.

Lemma handleGetHistory_negative_range_witness :
  handleGetHistory (rows_after 0) 0 "5" "-2h" = StatusInternalServerError.
Proof.
  exact (handleGetHistory_negative_range (rows_after 0) 0 5 2 "5" eq_refl ltac:(lia)
           ltac:(unfold Duration.two63; lia)).
Defined.
End HistoryExtras.

(** ** The Log Collector's message handler *)
Module LogCollectorExtras.
Import ParseFacts LogCollector.

Fixpoint noslash (s : string) : bool :=
  match s with
  | EmptyString => true
  | String c s' => negb (Ascii.eqb c "/") && noslash s'
  end.






Lemma Split_noslash (s : string) : noslash s = true -> Split s = [s].
Proof.
  induction s as [|c s IH]; [reflexivity|]. simpl. intros H. apply andb_true_iff in H as [Hc Hs].
  apply negb_true_iff in Hc. rewrite Hc, (IH Hs). reflexivity.
Qed.



Lemma Split_no_slash_topic (s : string) : noslash s = true -> (length (Split s) < 2)%nat.
Proof. intros H. rewrite (Split_noslash s H). simpl. lia. Qed.







(** A message whose topic has no "/" (so no service part) is ignored:
    no file is written. *)
Theorem messageHandler_no_slash (fs : files) (topic payload : string) :
  noslash topic = true -> messageHandler fs topic payload = fs.
Proof. intros H. unfold messageHandler. rewrite (Split_noslash topic H). reflexivity. Qed.

Lemma messageHandler_no_slash_witness :
  messageHandler {[ "/var/log/iot-app/a.log" := "x"%string ]} "logs" "hi"
    = {[ "/var/log/iot-app/a.log" := "x"%string ]}.
Proof. exact (messageHandler_no_slash _ "logs" "hi" eq_refl). Defined.



End LogCollectorExtras.

(** ** Further properties of the metadata refresh *)
Module RefreshExtras.
Import Ingestor MetadataRefresh.

(** No row of [rs] failed to scan. *)
Definition all_scanned (rs : list scan_row) : Prop := forall r, In r rs -> r <> RowScanError.

Lemma all_scanned_cons (r : scan_row) (rs : list scan_row) :
  all_scanned (r :: rs) -> all_scanned rs.
Proof. intros H r' Hr'. apply H. now right. Qed.

Lemma all_scanned_app_l (rs1 rs2 : list scan_row) :
  all_scanned (rs1 ++ rs2) -> all_scanned rs1.
Proof. intros H r Hr. apply H. apply in_or_app. now left. Qed.

Lemma fill_app (rs1 rs2 : list scan_row) (m : gmap string SensorMetadata) :
  all_scanned rs1 -> fill (rs1 ++ rs2) m = fill rs2 (fill rs1 m).
Proof.
  revert m. induction rs1 as [|[t x|] rs1 IH]; intros m H; simpl; [reflexivity| |].
  - apply IH. exact (all_scanned_cons _ _ H).
  - exfalso. exact (H RowScanError (or_introl eq_refl) eq_refl).
Qed.

Lemma fill_stop (tail : list scan_row) (m : gmap string SensorMetadata) :
  (tail = [] \/ exists rs2, tail = RowScanError :: rs2) -> fill tail m = m.
Proof. intros [->|[rs2 ->]]; reflexivity. Qed.

Lemma fill_absent (rs : list scan_row) (m : gmap string SensorMetadata) (k : string) :
  (forall x, ~ In (RowOk k x) rs) -> fill rs m !! k = m !! k.
Proof.
  revert m. induction rs as [|[t x|] rs IH]; intros m Hn; simpl; [reflexivity| |reflexivity].
  rewrite IH.
  - rewrite lookup_insert_ne; [reflexivity|]. intros <-. apply (Hn x). now left.
  - intros y Hy. apply (Hn y). now right.
Qed.

Lemma fill_last (rs1 rs2 : list scan_row) (k : string) (x : SensorMetadata)
      (m : gmap string SensorMetadata) :
  all_scanned rs1 -> (forall y, ~ In (RowOk k y) rs2) ->
  fill (rs1 ++ RowOk k x :: rs2) m !! k = Some x.
Proof.
  intros Hs Hn. rewrite (fill_app rs1 _ m Hs). simpl.
  rewrite (fill_absent rs2 _ k Hn). apply lookup_insert_eq.
Qed.

Lemma fill_some_split (rs : list scan_row) (k : string) (x : SensorMetadata) :
  all_scanned rs -> fill rs ∅ !! k = Some x ->
  exists rs1 rs2, rs = rs1 ++ RowOk k x :: rs2 /\ forall y, ~ In (RowOk k y) rs2.
Proof.
  induction rs as [|r rs IH] using rev_ind; intros Hs.
  - simpl. rewrite lookup_empty. discriminate.
  - pose proof (all_scanned_app_l _ _ Hs) as Hs'.
    rewrite (fill_app rs [r] ∅ Hs'). destruct r as [t y|]; simpl.
    + destruct (String.eqb_spec t k) as [->|Hne].
      * rewrite lookup_insert_eq. intros H; injection H as ->.
        exists rs, []. split; [reflexivity|]. intros z [].
      * rewrite lookup_insert_ne by exact Hne. intros H.
        destruct (IH Hs' H) as (rs1 & rs2 & -> & Hn).
        exists rs1, (rs2 ++ [RowOk t y]). split; [now rewrite <- app_assoc|].
        intros z Hz. apply in_app_or in Hz as [Hz|[Hz|[]]]; [exact (Hn z Hz)|].
        injection Hz as E _. exact (Hne E).
    + exfalso. apply (Hs RowScanError); [apply in_or_app; right; now left|reflexivity].
Qed.

Lemma fill_keeps (rs : list scan_row) (m : gmap string SensorMetadata) (k : string)
      (x : SensorMetadata) :
  m !! k = Some x -> exists y, fill rs m !! k = Some y.
Proof.
  revert m x. induction rs as [|[t y|] rs IH]; intros m x H; simpl; eauto.
  destruct (String.eqb_spec t k) as [->|Hne].
  - apply (IH _ y). apply lookup_insert_eq.
  - apply (IH _ x). rewrite lookup_insert_ne by exact Hne. exact H.
Qed.

Lemma fill_in (rs : list scan_row) (m : gmap string SensorMetadata) (k : string)
      (x : SensorMetadata) :
  all_scanned rs -> In (RowOk k x) rs -> exists y, fill rs m !! k = Some y.
Proof.
  revert m. induction rs as [|[t y|] rs IH]; intros m Hs Hin; simpl in *; [destruct Hin| |].
  - destruct Hin as [E|Hin]; [|exact (IH _ (all_scanned_cons _ _ Hs) Hin)].
    injection E as -> ->. apply (fill_keeps _ _ _ x). apply lookup_insert_eq.
  - exfalso. exact (Hs RowScanError (or_introl eq_refl) eq_refl).
Qed.

Lemma fill_none (rs : list scan_row) (k : string) :
  all_scanned rs -> (fill rs ∅ !! k = None <-> forall x, ~ In (RowOk k x) rs).
Proof.
  intros Hs. split.
  - intros H x Hin. destruct (fill_in rs ∅ k x Hs Hin) as [y Hy]. congruence.
  - intros Hn. rewrite (fill_absent rs ∅ k Hn). apply lookup_empty.
Qed.

Lemma StartAutoRefresh_app (pre post : list query_result) (s : MetadataService) :
  StartAutoRefresh (pre ++ post) s = StartAutoRefresh post (StartAutoRefresh pre s).
Proof.
  revert s. induction pre as [|q pre IH]; intros s; simpl; [reflexivity|].
  destruct (LoadSensors q s) as [[e s'] ops]. apply IH.
Qed.

Lemma StartAutoRefresh_errors (post : list query_result) (s : MetadataService) :
  Forall (fun q => q = QueryError) post -> StartAutoRefresh post s = s.
Proof.
  intros H. revert s. induction H as [|q post Hq _ IH]; intros s; [reflexivity|].
  subst q. simpl. apply IH.
Qed.

(** [LoadSensors] builds the new map from the rows read before the first
    row that fails to scan, and from no later row: the scan error ends
    the loop but is not returned, so the refresh still succeeds. Among
    the rows read, a topic maps to the metadata of the last row with that
    topic, and a topic that no row read carries is absent, whatever the
    previous cache held. *)
Theorem LoadSensors_lookup (rs1 tail : list scan_row) (s s' : MetadataService)
        (err : option load_error) (ops : list cache_op) (topic : string) :
  all_scanned rs1 ->
  (tail = [] \/ exists rs2, tail = RowScanError :: rs2) ->
  LoadSensors (QueryRows (rs1 ++ tail)) s = (err, s', ops) ->
  err = None /\
  (forall x, GetMetadata s' topic = Some x <->
     exists a b, rs1 = a ++ RowOk topic x :: b /\ forall y, ~ In (RowOk topic y) b) /\
  (GetMetadata s' topic = None <-> forall x, ~ In (RowOk topic x) rs1).
Proof.
  intros Hs Ht H. simpl in H. injection H as <- <- _. unfold GetMetadata. simpl.
  rewrite (fill_app rs1 tail ∅ Hs), (fill_stop tail _ Ht).
  split; [reflexivity|]. split; [|exact (fill_none rs1 topic Hs)].
  intros x. split; [exact (fill_some_split rs1 topic x Hs)|].
  intros (a & b & -> & Hn). exact (fill_last a b topic x ∅ (all_scanned_app_l _ _ Hs) Hn).
Qed.

Definition meta_1 : SensorMetadata := MkSensorMetadata 1 None None.
Definition meta_2 : SensorMetadata := MkSensorMetadata 2 None None.
Definition rows_a : list scan_row := [RowOk "a" meta_1; RowScanError; RowOk "a" meta_2].
Definition svc_b : MetadataService := MkMetadataService {[ "b" := meta_1 ]}.

Lemma LoadSensors_lookup_witness :
  GetMetadata (MkMetadataService (fill rows_a ∅)) "a" = Some meta_1 /\
  GetMetadata (MkMetadataService (fill rows_a ∅)) "b" = None.
Proof.
  assert (Hs : all_scanned [RowOk "a" meta_1]) by (intros r [<-|[]]; discriminate).
  assert (Ht : [RowScanError; RowOk "a" meta_2] = [] \/
               exists rs2, [RowScanError; RowOk "a" meta_2] = RowScanError :: rs2)
    by (right; eexists; reflexivity).
  assert (H := fun topic => LoadSensors_lookup [RowOk "a" meta_1] [RowScanError; RowOk "a" meta_2]
           svc_b (MkMetadataService (fill rows_a ∅)) None
           [Lock; SetCache (fill rows_a ∅); Unlock] topic Hs Ht eq_refl).
  split.
  - apply (proj2 (proj1 (proj2 (H "a"%string)) meta_1)).
    exists [], []. split; [reflexivity|]. intros y [].
  - apply (proj2 (proj2 (proj2 (H "b"%string)))).
    intros x [E|[]]. discriminate.
Defined.

(** The background refresh keeps the result of the last successful
    query: after a sequence of ticks whose last successful [LoadSensors]
    read the rows [rs], the cache is the map [fill] builds from [rs]
    (up to its first row that fails to scan), and ticks whose query fails
    leave the service as it was. *)
Theorem StartAutoRefresh_last_success (pre post : list query_result) (rs : list scan_row)
        (s : MetadataService) :
  Forall (fun q => q = QueryError) post ->
  StartAutoRefresh (pre ++ QueryRows rs :: post) s = MkMetadataService (fill rs ∅) /\
  StartAutoRefresh post s = s.
Proof.
  intros H. split; [|exact (StartAutoRefresh_errors post s H)].
  rewrite StartAutoRefresh_app. simpl. apply StartAutoRefresh_errors. exact H.
Qed.

Lemma StartAutoRefresh_last_success_witness :
  StartAutoRefresh [QueryRows []; QueryRows rows_a; QueryError] svc_b
    = MkMetadataService {[ "a" := meta_1 ]}.
Proof.
  refine (eq_trans (proj1 (StartAutoRefresh_last_success [QueryRows []] [QueryError] rows_a svc_b
                  ltac:(repeat constructor))) _).
  reflexivity.
Defined.
End RefreshExtras.

(** ** Further properties of [ProcessMessage] *)
Module IngestorExtras.
Import Strconv Ingestor.

(** Every event [ProcessMessage] emits comes from a known topic and a
    payload that parsed with no error to a finite value, not below a
    present minimum and not above a present maximum; the event is the
    JSON object with the sensor id of the topic's metadata, that value
    and the processing time, in this order. *)
Theorem ProcessMessage_event_shape (now : Z) (topic payload : string) (svc : MetadataService)
        (j : json) :
  ProcessMessage now topic payload svc = inr j ->
  exists meta v t,
    GetMetadata svc topic = Some meta /\ ParseFloat payload = (v, None) /\
    is_finite v = true /\
    (forall lo, MinValue meta = Some lo -> SFltb v lo = false) /\
    (forall hi, MaxValue meta = Some hi -> SFltb hi v = false) /\
    GoTime.format_rfc3339nano now = Some t /\
    j = JObject [("sensor_id", JInt (ID meta)); ("value", JNumber v); ("timestamp", JString t)].
Proof.
  unfold ProcessMessage. destruct (GetMetadata svc topic) as [meta|] eqn:Hm; [|discriminate].
  destruct (ParseFloat payload) as [v [err|]] eqn:Hp; [discriminate|].
  destruct (check_min meta v) eqn:Hmin; [discriminate|].
  destruct (check_max meta v) eqn:Hmax; [discriminate|].
  unfold marshal_event, marshal_float. simpl.
  destruct (is_finite v) eqn:Hf; [|discriminate].
  destruct (GoTime.format_rfc3339nano now) as [t|] eqn:Ht; [|discriminate].
  intros H. injection H as <-.
  exists meta, v, t. do 3 (split; [first [reflexivity|assumption]|]).
  split; [|split; [|split; first [reflexivity|assumption]]].
  - intros lo Hlo. unfold check_min in Hmin. rewrite Hlo in Hmin.
    destruct (SFltb v lo); [discriminate|reflexivity].
  - intros hi Hhi. unfold check_max in Hmax. rewrite Hhi in Hmax.
    destruct (SFltb hi v); [discriminate|reflexivity].
Qed.

Definition svc_t : MetadataService :=
  MkMetadataService {[ "home/t" := MkSensorMetadata 5 None None ]}.

Lemma ProcessMessage_event_shape_witness :
  exists j meta v t, ProcessMessage 0 "home/t" "21" svc_t = inr j /\
    j = JObject [("sensor_id", JInt (ID meta)); ("value", JNumber v); ("timestamp", JString t)].
Proof.
  destruct (ProcessMessage 0 "home/t" "21" svc_t) as [e|j] eqn:E;
    [vm_compute in E; discriminate|].
  destruct (ProcessMessage_event_shape 0 "home/t" "21" svc_t j E)
    as (meta & v & t & _ & _ & _ & _ & _ & _ & Hj).
  exists j, meta, v, t. split; [reflexivity|exact Hj].
Defined.
End IngestorExtras.

(** ** Further properties of the sensor list *)
Module SensorsExtras.
Import Strconv SensorsApi.

Lemma collect_rows_map (get : string -> redis_reply) (rows : list sensor_row) :
  collect_rows get (map ScanOk rows) = Some (map (make_dto get) rows).
Proof. induction rows as [|r rows IH]; simpl; [reflexivity|]. now rewrite IH. Qed.

Lemma collect_rows_scan_error (get : string -> redis_reply) (rs : list scan_result) :
  In ScanError rs -> collect_rows get rs = None.
Proof.
  induction rs as [|[r|] rs IH]; simpl; intros Hin; [destruct Hin| |reflexivity].
  destruct Hin as [E|Hin]; [discriminate|]. now rewrite (IH Hin).
Qed.

Lemma make_dto_static (get : string -> redis_reply) (r : sensor_row) :
  DtoID (make_dto get r) = r_id r /\ Topic (make_dto get r) = r_topic r /\
  Name (make_dto get r) = r_name r /\ Type_ (make_dto get r) = r_type r /\
  Unit (make_dto get r) = r_unit r.
Proof. unfold make_dto. destruct (get _); repeat split. Qed.

Lemma ParseFloat_syntax_zero (s : string) :
  snd (ParseFloat s) = Some ErrSyntax -> fst (ParseFloat s) = S754_zero false.
Proof.
  unfold ParseFloat. intros H. destruct (special s) as [[f n]|].
  - destruct (n =? String.length s)%nat; simpl in *; [discriminate|reflexivity].
  - destruct (read_float s) as [r|]; simpl in *; [|reflexivity].
    destruct (rr_rest r); simpl in *; [|reflexivity].
    destruct (to_float64 _ _ _ _); simpl in *; first [discriminate H | reflexivity].
Qed.

Lemma marshal_dtos_none (ds : list SensorDTO) (d : SensorDTO) :
  In d ds -> marshal_dto d = None -> marshal_dtos ds = None.
Proof.
  induction ds as [|d' ds IH]; simpl; intros Hin Hd; [destruct Hin|].
  destruct Hin as [<-|Hin]; [now rewrite Hd|].
  rewrite (IH Hin Hd). now destruct (marshal_dto d').
Qed.

(** When every row scans, [GetAllSensors] returns one DTO per row, in
    the order of the query, each with the id, topic, name, type and unit
    of its row. *)
Theorem GetAllSensors_one_per_row (get : string -> redis_reply) (rows : list sensor_row) :
  GetAllSensors (Some (map ScanOk rows)) get = Some (map (make_dto get) rows) /\
  map DtoID (map (make_dto get) rows) = map r_id rows /\
  map Topic (map (make_dto get) rows) = map r_topic rows /\
  map Name (map (make_dto get) rows) = map r_name rows /\
  map Type_ (map (make_dto get) rows) = map r_type rows /\
  map Unit (map (make_dto get) rows) = map r_unit rows.
Proof.
  split; [apply collect_rows_map|].
  rewrite !map_map.
  repeat split; apply map_ext; intros r; apply (make_dto_static get r).
Qed.

(** A failed query, or a single row that fails to scan (whatever the
    other rows), makes [GetAllSensors] fail, and [handleListSensors]
    then answers 500 with no JSON body. *)
Theorem GetAllSensors_scan_error (get : string -> redis_reply) (rs : list scan_result) :
  In ScanError rs ->
  GetAllSensors (Some rs) get = None /\
  handleListSensors (Some rs) get = (HomeApi.StatusInternalServerError, None) /\
  handleListSensors None get = (HomeApi.StatusInternalServerError, None).
Proof.
  intros Hin. pose proof (collect_rows_scan_error get rs Hin) as H.
  unfold handleListSensors, GetAllSensors. rewrite H. repeat split.
Qed.

Definition row_7 : sensor_row := MkSensorRow 7 "home/t" "Kitchen" "temperature" "C".

Lemma GetAllSensors_scan_error_witness :
  handleListSensors (Some [ScanOk row_7; ScanError]) (fun _ => RNil) = (500, None).
Proof.
  exact (proj1 (proj2 (GetAllSensors_scan_error (fun _ => RNil) [ScanOk row_7; ScanError]
                         (or_intror (or_introl eq_refl))))).
Defined.

(** A failed read of [sensor:last:<id>] is not reported: on a transport
    error [current_value] is left unset ([null]), like a missing key; a
    stored text that is not a number becomes the value 0, since the
    [ParseFloat] error is discarded and its value, 0, is kept. *)
Theorem make_dto_failed_reads (get : string -> redis_reply) (r : sensor_row) :
  (get (Persister.last_key (r_id r)) = RErr ->
   CurrentValue (make_dto get r) = None /\ current_value_json (make_dto get r) = Some JNull) /\
  (forall s, get (Persister.last_key (r_id r)) = RVal s ->
   snd (ParseFloat s) = Some ErrSyntax ->
   CurrentValue (make_dto get r) = Some (S754_zero false) /\
   current_value_json (make_dto get r) = Some (JNumber (S754_zero false))).
Proof.
  split.
  - intros H. unfold current_value_json, marshal_dto, make_dto. rewrite H. split; reflexivity.
  - intros s H Hs. pose proof (ParseFloat_syntax_zero s Hs) as Hz.
    unfold current_value_json, marshal_dto, make_dto. rewrite H. simpl. rewrite Hz.
    split; reflexivity.
Qed.

(** When the query returns no row, the body is the JSON [null], not an
    empty array, since [sensors] stays a nil slice. When any listed
    sensor holds a value that is not finite (a cached "Inf", or a number
    too large for a float64), the encoding fails: the status stays 200
    and no JSON body is written. *)
Theorem handleListSensors_edges (q : option (list scan_result)) (get : string -> redis_reply)
        (ds : list SensorDTO) (d : SensorDTO) (v : float64) :
  GetAllSensors q get = Some ds -> In d ds -> CurrentValue d = Some v -> is_finite v = false ->
  handleListSensors q get = (HomeApi.StatusOK, None) /\
  handleListSensors (Some []) get = (HomeApi.StatusOK, Some JNull).
Proof.
  intros Hq Hin Hv Hf. split; [|reflexivity].
  unfold handleListSensors. rewrite Hq.
  assert (Hd : marshal_dto d = None).
  { unfold marshal_dto, Ingestor.marshal_float. rewrite Hv, Hf. reflexivity. }
  unfold encode_sensors. rewrite (marshal_dtos_none ds d Hin Hd).
  destruct ds; [destruct Hin|reflexivity].
Qed.

Lemma handleListSensors_edges_witness :
  handleListSensors (Some [ScanOk row_7]) (fun _ => RVal "Inf") = (200, None).
Proof.
  refine (proj1 (handleListSensors_edges (Some [ScanOk row_7]) (fun _ => RVal "Inf")
                   [make_dto (fun _ => RVal "Inf") row_7] (make_dto (fun _ => RVal "Inf") row_7)
                   (fst (ParseFloat "Inf")) eq_refl (or_introl eq_refl) eq_refl _)).
  vm_compute. reflexivity.
Defined.
End SensorsExtras.

(** ** Further properties of [SaveMeasurement] on [sensor_data] *)
Module SaveExtras.
Import Strconv Schema Persister PersisterFacts.

Lemma insert_fk_violation (f : Z -> bool) (t : sensor_data) (time sid : Z) (v : float64) :
  ids_below_seq t -> id_seq t <= int4_max -> f sid = false ->
  insert f t time sid v = inl (ForeignKeyViolation, MkSensorData (rows t) (id_seq t + 1)).
Proof.
  intros Hinv Hseq Hf. unfold insert. rewrite (proj2 (Z.ltb_ge int4_max (id_seq t)) Hseq).
  now rewrite (pk_taken_fresh _ _ Hinv), Hf.
Qed.

Lemma ids_below_seq_bump (t : sensor_data) :
  ids_below_seq t -> ids_below_seq (MkSensorData (rows t) (id_seq t + 1)).
Proof.
  unfold ids_below_seq. simpl. intros H. eapply Forall_impl; [exact H|]. simpl. intros r Hr. lia.
Qed.

Lemma pg_exec_invariant (e : env) (t : sensor_data) (ev : SensorEvent) :
  ids_below_seq t ->
  match pg_exec e t ev with inl t1 => ids_below_seq t1 | inr t' => ids_below_seq t' end.
Proof.
  intros Hinv. unfold pg_exec. destruct (pg_up e); simpl; [|exact Hinv].
  destruct (int4 (SensorID ev)); simpl; [|exact Hinv].
  destruct (int4_max <? id_seq t) eqn:Hseq.
  - unfold insert. rewrite Hseq. exact Hinv.
  - apply Z.ltb_ge in Hseq.
    destruct (sensor_exists e (SensorID ev)) eqn:Hf.
    + unfold insert. rewrite (proj2 (Z.ltb_ge int4_max (id_seq t)) Hseq).
      rewrite (pk_taken_fresh _ _ Hinv), Hf. simpl.
      exact (ids_below_seq_insert _ _ _ _ Hinv).
    + rewrite (insert_fk_violation _ _ _ _ _ Hinv Hseq Hf). exact (ids_below_seq_bump _ Hinv).
Qed.

(** A measurement of a sensor that does not exist, with an id in the
    int4 range of [sensor_id] and while the [id] sequence has not run
    out, is refused by the foreign key: [SaveMeasurement] fails with the
    insert error, adds no row and writes nothing to the key-value store,
    but the [id] sequence has still advanced, so the next accepted row
    skips an id. *)
Theorem SaveMeasurement_unknown_sensor (e : env) (s : stores) (ev : SensorEvent) :
  pg_up e = true -> int4 (SensorID ev) = true ->
  ids_below_seq (pg s) -> id_seq (pg s) <= int4_max ->
  sensor_exists e (SensorID ev) = false ->
  SaveMeasurement e s ev =
    (Some PgInsertFailed, MkStores (MkSensorData (rows (pg s)) (id_seq (pg s) + 1)) (kv s)).
Proof.
  intros Hup H4 Hinv Hseq Hf. unfold SaveMeasurement, pg_exec. rewrite Hup, H4. simpl.
  now rewrite (insert_fk_violation _ _ _ _ _ Hinv Hseq Hf).
Qed.

Definition env_only_5 : env := MkEnv true true (fun id => id =? 5).
Definition stores_1 : stores := MkStores (MkSensorData [MkDataRow 1 1000 5 (of_Z 21)] 2) ∅.

Lemma SaveMeasurement_unknown_sensor_witness :
  SaveMeasurement env_only_5 stores_1 (MkSensorEvent 9 (of_Z 3) 2000) =
    (Some PgInsertFailed, MkStores (MkSensorData [MkDataRow 1 1000 5 (of_Z 21)] 3) ∅).
Proof.
  exact (SaveMeasurement_unknown_sensor env_only_5 stores_1 (MkSensorEvent 9 (of_Z 3) 2000)
           eq_refl eq_refl ltac:(repeat constructor; simpl; lia)
           ltac:(unfold int4_max; simpl; lia) eq_refl).
Defined.

(** A measurement whose sensor id lies outside the int4 range of
    [sensor_id] (pgx fails to encode it and sends nothing), or one saved
    after the [id] sequence has run out, is refused: [SaveMeasurement]
    fails with the insert error and changes neither store, the sequence
    included. *)
Theorem SaveMeasurement_not_inserted (e : env) (s : stores) (ev : SensorEvent) :
  int4 (SensorID ev) = false \/ int4_max < id_seq (pg s) ->
  SaveMeasurement e s ev = (Some PgInsertFailed, s).
Proof.
  intros H. unfold SaveMeasurement, pg_exec.
  destruct (pg_up e); simpl; [|now destruct s].
  destruct H as [H|H].
  - rewrite H. simpl. now destruct s.
  - destruct (int4 (SensorID ev)); simpl; [|now destruct s].
    unfold insert. rewrite (proj2 (Z.ltb_lt int4_max (id_seq (pg s))) H). now destruct s.
Qed.

Definition stores_full : stores :=
  MkStores (MkSensorData [MkDataRow 2147483647 1000 5 (of_Z 21)] 2147483648) ∅.

Lemma SaveMeasurement_not_inserted_witness :
  SaveMeasurement env_only_5 stores_1 (MkSensorEvent 2147483648 (of_Z 3) 2000)
    = (Some PgInsertFailed, stores_1) /\
  SaveMeasurement env_only_5 stores_full (MkSensorEvent 5 (of_Z 3) 2000)
    = (Some PgInsertFailed, stores_full).
Proof.
  assert (H1 : int4 (SensorID (MkSensorEvent 2147483648 (of_Z 3) 2000)) = false) by reflexivity.
  assert (H2 : int4_max < id_seq (pg stores_full)) by (unfold int4_max; simpl; lia).
  split.
  - exact (SaveMeasurement_not_inserted env_only_5 stores_1 (MkSensorEvent 2147483648 (of_Z 3) 2000)
             (or_introl H1)).
  - exact (SaveMeasurement_not_inserted env_only_5 stores_full (MkSensorEvent 5 (of_Z 3) 2000)
             (or_intror H2)).
Defined.

(** Whatever its outcome (a store down, a sensor id outside int4, an
    exhausted sequence, an unknown sensor, a key-value failure or
    success), [SaveMeasurement] keeps every row id below the [id]
    sequence; so, starting from the empty table, the primary key
    [(time, id)] of the next insert is never already taken, and no save
    ever fails with a primary-key conflict. *)
Theorem SaveMeasurement_keeps_fresh_ids (e : env) (s : stores) (ev : SensorEvent) :
  ids_below_seq (pg s) ->
  ids_below_seq (pg (snd (SaveMeasurement e s ev))) /\
  forall time, pk_taken (pg (snd (SaveMeasurement e s ev))) time
                 (id_seq (pg (snd (SaveMeasurement e s ev)))) = false.
Proof.
  intros Hinv.
  assert (H : ids_below_seq (pg (snd (SaveMeasurement e s ev)))).
  { pose proof (pg_exec_invariant e (pg s) ev Hinv) as Hp.
    unfold SaveMeasurement. destruct (pg_exec e (pg s) ev) as [t1|t']; [exact Hp|].
    destruct (redis_set _ _ _ _ _); exact Hp. }
  split; [exact H|]. intros time. exact (pk_taken_fresh _ time H).
Qed.

Lemma SaveMeasurement_keeps_fresh_ids_witness :
  ids_below_seq (pg (snd (SaveMeasurement env_only_5 stores_1 (MkSensorEvent 5 (of_Z 3) 1000)))).
Proof.
  exact (proj1 (SaveMeasurement_keeps_fresh_ids env_only_5 stores_1 (MkSensorEvent 5 (of_Z 3) 1000)
                  ltac:(repeat constructor; simpl; lia))).
Defined.
End SaveExtras.
